(** * target_watcher: a shallow embedding of [target_watcher.py]

    The program fetches a feed of target records, keeps those whose host is
    under a monitored domain and whose identifier has not been seen, notifies
    a chat webhook and an e-mail sink, and persists the seen identifiers.

    Modelling conventions.
    - Python [str] values are Rocq [string]s.  Host names, methods and paths
      are taken to be ASCII: [lower], [upper] and [strip] below are Python's
      on the code points 0..127 and leave the others alone.
    - A feed record is a JSON object whose textual fields are JSON strings,
      [null] or absent (section 3 of the specification); [field] keeps the
      three cases apart because [t.get(k)] and [t.get(k, "")] do.  Numbers,
      arrays and objects as field values are outside the model.
    - A Python [dict] keeps insertion order; it is an association list with
      pairwise distinct keys ([dict_set] keeps that shape).
    - [config] holds the module-level globals once the environment has been
      read and converted; the caps are Python integers, hence [Z].
    - Effects (HTTP, SMTP, the state file, the two output streams and the
      exit status) are threaded through a small state-and-exception monad;
      the answers of the outside world are read from a [world] record.  The
      write of the state file is taken to succeed.  *)

From Stdlib Require Import List String Ascii ZArith Lia Bool Arith.
From Stdlib Require Import Permutation Sorted DecimalString DecimalPos DecimalZ Finite.
Import ListNotations.

Local Open Scope string_scope.
Local Open Scope list_scope.

(** ** Python string primitives *)

Module PyStr.

Definition is_upper (c : ascii) : bool :=
  let n := nat_of_ascii c in (65 <=? n)%nat && (n <=? 90)%nat.

Definition is_lower (c : ascii) : bool :=
  let n := nat_of_ascii c in (97 <=? n)%nat && (n <=? 122)%nat.

Definition lower_char (c : ascii) : ascii :=
  if is_upper c then ascii_of_nat (nat_of_ascii c + 32) else c.

Definition upper_char (c : ascii) : ascii :=
  if is_lower c then ascii_of_nat (nat_of_ascii c - 32) else c.

Fixpoint map_chars (f : ascii -> ascii) (s : string) : string :=
  match s with
  | EmptyString => EmptyString
  | String c s' => String (f c) (map_chars f s')
  end.

(** [s.lower()] and [s.upper()] *)
Definition lower : string -> string := map_chars lower_char.
Definition upper : string -> string := map_chars upper_char.

(** [c.isspace()] on ASCII: TAB, LF, VT, FF, CR, FS, GS, RS, US and space. *)
Definition is_space (c : ascii) : bool :=
  let n := nat_of_ascii c in
  ((9 <=? n)%nat && (n <=? 13)%nat) || ((28 <=? n)%nat && (n <=? 32)%nat).

Fixpoint lstrip (s : string) : string :=
  match s with
  | EmptyString => EmptyString
  | String c s' => if is_space c then lstrip s' else s
  end.

Fixpoint rstrip (s : string) : string :=
  match s with
  | EmptyString => EmptyString
  | String c s' =>
      match rstrip s' with
      | EmptyString => if is_space c then EmptyString else String c EmptyString
      | r => String c r
      end
  end.

(** [s.strip()] *)
Definition strip (s : string) : string := rstrip (lstrip s).

(** [s.startswith(p)] *)
Definition startswith (s p : string) : bool := prefix p s.

(** [s[n:]] *)
Fixpoint drop (n : nat) (s : string) : string :=
  match n, s with
  | O, _ => s
  | S n', String _ s' => drop n' s'
  | S _, EmptyString => EmptyString
  end.

(** [s.endswith(suf)] *)
Definition endswith (s suf : string) : bool :=
  (length suf <=? length s)%nat && (drop (length s - length suf) s =? suf).

(** [sep.join(ls)] *)
Definition join (sep : string) (ls : list string) : string := concat sep ls.

(** [str(n)] for an integer *)
Definition str_int (z : Z) : string := NilZero.string_of_int (Z.to_int z).

(** The truth value of a string: empty is false. *)
Definition nonempty (s : string) : bool :=
  match s with EmptyString => false | _ => true end.

End PyStr.
Import PyStr.

(** ** Host matcher *)

(** [normalize_host]: lower-case, trim surrounding white space, then drop
    one leading ["www."].  The [h or ""] of the source guards against [None];
    on a string it is the identity, and callers holding a possibly-[None]
    value apply [str_or_empty] first. *)
Definition normalize_host (h : string) : string :=
  let h := strip (lower h) in
  if startswith h "www." then drop 4 h else h.

(** One iteration of the loop body's test in [host_matches]. *)
Definition host_under (host m : string) : bool :=
  let m := normalize_host m in
  (host =? m) || endswith host ("." ++ m)%string.

(** [host_matches]: the [for] loop returns [True] at the first hit. *)
Fixpoint host_matches_loop (monitored : list string) (host : string) : bool :=
  match monitored with
  | [] => false
  | m :: rest => if host_under host m then true else host_matches_loop rest host
  end.

Definition host_matches (monitored : list string) (host : string) : bool :=
  host_matches_loop monitored (normalize_host host).

(** The normalisation as the specification words it: lower-case and strip
    one leading ["www."] label (no trimming of white space). *)
Definition spec_normalized (h : string) : string :=
  let h := lower h in
  if startswith h "www." then drop 4 h else h.

(** The matching rule as the specification words it, over a given
    normalisation [norm]. *)
Definition spec_matches (norm : string -> string) (M : list string) (h : string) : Prop :=
  exists m, In m M /\ (norm h = norm m \/ exists p, norm h = (p ++ "." ++ norm m)%string).

(** ** Feed records *)

(** A key of a JSON record: absent, [null] or a string. *)
Inductive field : Type :=
| Missing
| Null
| Str (s : string).

(** The Python value a lookup yields: [None] or a [str]. *)
Inductive pyval : Type :=
| PNone
| PStr (s : string).

(** [t.get(k)] *)
Definition get (f : field) : pyval :=
  match f with
  | Str s => PStr s
  | Missing | Null => PNone
  end.

(** [t.get(k, d)]: the default replaces an absent key, not a [null]. *)
Definition get_default (f : field) (d : string) : pyval :=
  match f with
  | Missing => PStr d
  | Null => PNone
  | Str s => PStr s
  end.

Definition truthy (v : pyval) : bool :=
  match v with
  | PNone => false
  | PStr s => nonempty s
  end.

(** [a or b] *)
Definition py_or (a b : pyval) : pyval := if truthy a then a else b.

(** [f"{v}"] *)
Definition fmt (v : pyval) : string :=
  match v with
  | PNone => "None"
  | PStr s => s
  end.

(** [v or ""], which is always a [str] *)
Definition str_or_empty (v : pyval) : string :=
  match py_or v (PStr "") with
  | PStr s => s
  | PNone => ""
  end.

(** One record of the feed.  The port is kept as the text that [f"{port}"]
    prints. *)
Record target : Type := mkTarget {
  host : field;
  path : field;
  type_ : field;
  method : field;
  port : field;
  request_id : field
}.

(** An element of the ["targets"] array: a JSON object or anything else. *)
Inductive entry : Type :=
| NotADict
| Target (t : target).

(** ** Dictionaries in insertion order *)

Definition dict (V : Type) : Type := list (string * V).

Section Dict.
Context {V : Type}.

(** [k in d] *)
Fixpoint dict_contains (k : string) (d : dict V) : bool :=
  match d with
  | [] => false
  | (k', _) :: d' => if (k' =? k)%string then true else dict_contains k d'
  end.

(** [d.get(k)] *)
Fixpoint dict_get (k : string) (d : dict V) : option V :=
  match d with
  | [] => None
  | (k', v) :: d' => if (k' =? k)%string then Some v else dict_get k d'
  end.

(** [d[k] = v]: an existing key keeps its place, a new one goes last. *)
Fixpoint dict_set (k : string) (v : V) (d : dict V) : dict V :=
  match d with
  | [] => [(k, v)]
  | (k', v') :: d' =>
      if (k' =? k)%string then (k', v) :: d' else (k', v') :: dict_set k v d'
  end.

(** [del d[k]].  The source deletes keys it has just listed from [d], so
    the [KeyError] of an absent key cannot occur; here it is a no-op. *)
Fixpoint dict_del (k : string) (d : dict V) : dict V :=
  match d with
  | [] => []
  | (k', v') :: d' =>
      if (k' =? k)%string then d' else (k', v') :: dict_del k d'
  end.

(** [list(d.keys())] *)
Definition dict_keys (d : dict V) : list string := map fst d.

(** [len(d)] *)
Definition dict_len (d : dict V) : Z := Z.of_nat (List.length d).

(** The shape of every Python dictionary: no key twice. *)
Definition dict_wf (d : dict V) : Prop := NoDup (dict_keys d).
End Dict.

(** ** Identifiers and the matching loop of [main] *)

(** [f"{host}:{t.get('path','')}:{t.get('type','')}:{t.get('method','')}"] *)
Definition derived_id (t : target) : string :=
  (fmt (get (host t)) ++ ":" ++ fmt (get_default (path t) "") ++ ":" ++
   fmt (get_default (type_ t) "") ++ ":" ++ fmt (get_default (method t) ""))%string.

(** [rid = t.get("request_id") or f"..."] *)
Definition rid_of (t : target) : string :=
  fmt (py_or (get (request_id t)) (PStr (derived_id t))).

(** [host and host_matches(MONITORED_HOSTS, host)] *)
Definition host_ok (monitored : list string) (t : target) : bool :=
  truthy (get (host t)) && host_matches monitored (fmt (get (host t))).

(** The body of [for t in targets], on the pair of [seen] and [hits]. *)
Definition visit (monitored : list string)
    (acc : dict bool * list target) (e : entry) : dict bool * list target :=
  match e with
  | NotADict => acc
  | Target t =>
      let rid := rid_of t in
      if host_ok monitored t then
        if negb (dict_contains rid (fst acc))
        then (dict_set rid true (fst acc), snd acc ++ [t])
        else acc
      else acc
  end.

(** The whole loop, started with [hits = []]. *)
Definition scan (monitored : list string) (seen : dict bool)
    (targets : list entry) : dict bool * list target :=
  fold_left (visit monitored) targets (seen, []).

(** Whether the record [e] would be appended to [hits] when the loop meets
    it with the seen set [seen]. *)
Definition is_hit (monitored : list string) (seen : dict bool) (e : entry) : bool :=
  match e with
  | NotADict => false
  | Target t => host_ok monitored t && negb (dict_contains (rid_of t) seen)
  end.

(** ** Configuration, the outside world and the effect monad *)

Record config : Type := mkConfig {
  URL : option string;
  MONITORED_HOSTS : list string;
  USE_STATE : bool;
  SLACK_WEBHOOK : string;
  SLACK_SUMMARY_ONLY : bool;
  SLACK_EXAMPLES_PER_HOST : Z;
  SLACK_MAX_HOSTS : Z;
  SLACK_SUPPRESS_EMPTY : bool;
  SLACK_TITLE : string;
  SMTP_HOST : string;
  SMTP_PORT : Z;
  SMTP_USER : string;
  SMTP_PASS : string;
  EMAIL_FROM : string;
  EMAIL_TO : string
}.

(** The state object: a JSON object that may hold ["seen_request_ids"]. *)
Record State : Type := mkState {
  seen_request_ids : option (dict bool)
}.

(** What [json.loads] makes of a well-formed document. *)
Inductive json_doc : Type :=
| JObject (s : State)
| JOther.

(** The state file as [load_state] finds it. *)
Inductive file_state : Type :=
| NoFile
| Unreadable
| Malformed
| Json (doc : json_doc).

(** The answer to an HTTP POST. *)
Inductive http_result : Type :=
| Http2xx
| HttpStatusError (e : string)
| TransportError (e : string).

(** The answer to the GET of the feed: a [RequestException], or the value
    of [data.get("targets", [])]. *)
Inductive feed_result : Type :=
| FeedError (e : string)
| FeedTargets (targets : list entry).

Record world : Type := mkWorld {
  feed : feed_result;
  webhook : http_result;
  smtp : option string;      (* [Some e]: the SMTP session raises [e] *)
  hostname : string
}.

Inductive event : Type :=
| EvGet (url : string)
| EvPost (url text : string)
| EvSmtp (server : string) (port : Z) (login : bool)
         (sender recipient subject body : string)
| EvWrite (s : State)
| EvOut (line : string)
| EvErr (line : string).

Record machine : Type := mkMachine {
  trace : list event;
  file : file_state
}.

Inductive outcome (A : Type) : Type :=
| Ret (a : A)
| Raise (e : string)       (* an [Exception] *)
| Exit (code : Z).         (* [SystemExit], which [except Exception] lets through *)
Arguments Ret {A} a.
Arguments Raise {A} e.
Arguments Exit {A} code.

Definition M (A : Type) : Type := machine -> outcome A * machine.

Definition ret {A} (a : A) : M A := fun m => (Ret a, m).

Definition bind {A B} (c : M A) (k : A -> M B) : M B :=
  fun m =>
    match c m with
    | (Ret a, m') => k a m'
    | (Raise e, m') => (Raise e, m')
    | (Exit n, m') => (Exit n, m')
    end.

Notation "x <- c ;; k" := (bind c (fun x => k))
  (at level 61, c at next level, right associativity).
Notation "c ;; k" := (bind c (fun _ => k))
  (at level 61, right associativity).

Definition raise {A} (e : string) : M A := fun m => (Raise e, m).
Definition sys_exit {A} (code : Z) : M A := fun m => (Exit code, m).

(** [try: c  except Exception as e: h e] *)
Definition try_except {A} (c : M A) (h : string -> M A) : M A :=
  fun m =>
    match c m with
    | (Raise e, m') => h e m'
    | r => r
    end.

Definition emit (ev : event) : M unit :=
  fun m => (Ret tt, mkMachine (trace m ++ [ev]) (file m)).

Definition print (line : string) : M unit := emit (EvOut line).
Definition eprint (line : string) : M unit := emit (EvErr line).

(** [requests.post(url, json={"text": text}, timeout=15)] *)
Definition http_post (w : world) (url text : string) : M http_result :=
  emit (EvPost url text) ;;
  match webhook w with
  | TransportError e => raise e
  | r => ret r
  end.

(** [response.raise_for_status()] *)
Definition raise_for_status (r : http_result) : M unit :=
  match r with
  | HttpStatusError e => raise e
  | _ => ret tt
  end.

Definition nl : string := String (ascii_of_nat 10) EmptyString.

(** ** State handling *)

Definition empty_state : State := mkState (Some []).

(** [load_state] *)
Definition load_state (cfg : config) : M json_doc :=
  fun m =>
    if negb (USE_STATE cfg) then (Ret (JObject empty_state), m)
    else
      match file m with
      | Json doc => (Ret doc, m)                      (* read and parsed *)
      | Unreadable | Malformed => (Ret (JObject empty_state), m)   (* [except Exception: pass] *)
      | NoFile => (Ret (JObject empty_state), m)
      end.

(** [state.setdefault("seen_request_ids", {})]; a document that is not an
    object has no such method. *)
Definition setdefault_seen (doc : json_doc) : M (dict bool) :=
  match doc with
  | JObject s =>
      match seen_request_ids s with
      | Some seen => ret seen
      | None => ret []
      end
  | JOther => raise "object has no attribute 'setdefault'"
  end.

(** [for k in list(seen.keys())[:10000]: del seen[k]] *)
Definition evict (seen : dict bool) : dict bool :=
  fold_left (fun d k => dict_del k d) (firstn (Z.to_nat 10000) (dict_keys seen)) seen.

(** The object that [save_state] serialises: [state] after the eviction. *)
Definition persisted (state : State) : State :=
  let seen := match seen_request_ids state with Some d => d | None => [] end in
  if (50000 <? dict_len seen)%Z then mkState (Some (evict seen)) else state.

(** [STATE_FILE.write_text(json.dumps(state, ...))]; reading the file back
    parses to the same object. *)
Definition write_state (s : State) : M unit :=
  fun m => (Ret tt, mkMachine (trace m ++ [EvWrite s]) (Json (JObject s))).

(** [save_state] *)
Definition save_state (cfg : config) (state : State) : M unit :=
  if negb (USE_STATE cfg) then ret tt
  else write_state (persisted state).

(** ** Reports *)

(** [format_hits]: one line per hit. *)
Definition format_hit (t : target) : string :=
  let host := get (host t) in
  let path := get_default (path t) "" in
  let method := py_or (get_default (method t) "") (get_default (type_ t) "") in
  let typ := get_default (type_ t) "" in
  let port := get_default (port t) "" in
  let rid := get_default (request_id t) "" in
  ("- " ++ fmt host ++ "  " ++ fmt (py_or method typ) ++ " " ++
   fmt (py_or path (PStr "")) ++ " (port " ++ fmt port ++ ")  request_id=" ++
   fmt rid)%string.

Definition format_hits (hits : list target) : string :=
  join nl (map format_hit hits).

Record group : Type := mkGroup {
  count : Z;
  examples : list string
}.

(** The key under which [summarize_hits_by_host] files a hit. *)
Definition group_host (t : target) : string :=
  normalize_host (str_or_empty (get_default (host t) "")).

(** The example string of a hit: ["METHOD PATH"], trimmed. *)
Definition example_of (t : target) : string :=
  let method := upper (str_or_empty (py_or (get (method t)) (get (type_ t)))) in
  let path := str_or_empty (get (path t)) in
  strip (method ++ " " ++ path)%string.

(** The body of the loop of [summarize_hits_by_host]; [groups[host]] on a
    [defaultdict] creates the empty group when the key is new. *)
Definition add_hit (cap : Z) (groups : dict group) (t : target) : dict group :=
  let host := group_host t in
  let ex := example_of t in
  let g := match dict_get host groups with
           | Some g => g
           | None => mkGroup 0 []
           end in
  let n := (count g + 1)%Z in
  if nonempty ex && (Z.of_nat (List.length (examples g)) <? cap)%Z
  then dict_set host (mkGroup n (examples g ++ [ex])) groups
  else dict_set host (mkGroup n (examples g)) groups.

Definition summarize_hits_by_host (cfg : config) (hits : list target) : dict group :=
  fold_left (add_hit (SLACK_EXAMPLES_PER_HOST cfg)) hits [].

(** [sorted(groups.items(), key=count, reverse=True)]: the stable sort by
    decreasing count, equal counts keeping their order. *)
Fixpoint insert_desc (x : string * group) (l : list (string * group)) : list (string * group) :=
  match l with
  | [] => [x]
  | y :: l' =>
      if (count (snd x) <? count (snd y))%Z then y :: insert_desc x l' else x :: l
  end.

Definition sorted_desc (l : list (string * group)) : list (string * group) :=
  fold_right insert_desc [] l.

Definition group_line (item : string * group) : string :=
  let ex_str := join ", " (examples (snd item)) in
  if nonempty ex_str
  then ("• *" ++ fst item ++ "* — " ++ str_int (count (snd item)) ++
        " hits (e.g. " ++ ex_str ++ ")")%string
  else ("• *" ++ fst item ++ "* — " ++ str_int (count (snd item)) ++ " hits")%string.

(** The loop over [items] with its counter [shown] and its [break]; yields
    the lines appended and the final value of [shown]. *)
Fixpoint show_groups (cap shown : Z) (items : list (string * group)) : list string * Z :=
  match items with
  | [] => ([], shown)
  | item :: rest =>
      if (cap <=? shown)%Z then ([], shown)
      else
        let r := show_groups cap (shown + 1)%Z rest in
        (group_line item :: fst r, snd r)
  end.

Definition banner : string :=
  ":rotating_light: Oh noes, we might be under attack soon! :rotating_light:".

Definition title_line (cfg : config) (total unique_hosts : Z) (url : string) : string :=
  ("*" ++ SLACK_TITLE cfg ++ ":* " ++ str_int total ++ " new hits / " ++
   str_int unique_hosts ++ " hosts" ++ nl ++ url)%string.

Definition more_line (n : Z) : string :=
  ("…and " ++ str_int n ++ " more hosts.")%string.

(** The list [lines] that [format_compact_slack] joins. *)
Definition compact_lines (cfg : config) (hits : list target) (url : string) : list string :=
  let groups := summarize_hits_by_host cfg hits in
  let total := fold_right Z.add 0%Z (map (fun kv => count (snd kv)) groups) in
  let unique_hosts := dict_len groups in
  let items := sorted_desc groups in
  let r := show_groups (SLACK_MAX_HOSTS cfg) 0 items in
  [banner; title_line cfg total unique_hosts url] ++ fst r ++
  (if (snd r <? unique_hosts)%Z then [more_line (unique_hosts - snd r)] else []).

Definition format_compact_slack (cfg : config) (hits : list target) (url : string) : string :=
  join nl (compact_lines cfg hits url).

(** ** Notifications *)

Definition verbose_text (cfg : config) (w : world) (url : string) (hits : list target) : string :=
  (banner ++ nl ++ nl ++
   "*" ++ SLACK_TITLE cfg ++ ":* " ++ str_int (Z.of_nat (List.length hits)) ++
   " new match(es) on `" ++ url ++ "`" ++ nl ++
   "_host: " ++ hostname w ++ "_" ++ nl ++ nl ++
   format_hits hits)%string.

(** [notify_slack] *)
Definition notify_slack (cfg : config) (w : world) (url : string) (hits : list target) : M unit :=
  if negb (nonempty (SLACK_WEBHOOK cfg)) then ret tt
  else if match hits with [] => true | _ => false end && SLACK_SUPPRESS_EMPTY cfg then ret tt
  else
    try_except
      (let text := if SLACK_SUMMARY_ONLY cfg
                   then format_compact_slack cfg hits url
                   else verbose_text cfg w url hits in
       r <- http_post w (SLACK_WEBHOOK cfg) text ;;
       raise_for_status r)
      (fun e => eprint ("Slack notify failed: " ++ e)%string).

(** The SMTP session: STARTTLS, the optional login and the message. *)
Definition smtp_session (cfg : config) (w : world) (subject body : string) : M unit :=
  emit (EvSmtp (SMTP_HOST cfg) (SMTP_PORT cfg)
          (nonempty (SMTP_USER cfg) && nonempty (SMTP_PASS cfg))
          (EMAIL_FROM cfg) (EMAIL_TO cfg) subject body) ;;
  match smtp w with
  | Some e => raise e
  | None => ret tt
  end.

(** [notify_email] *)
Definition notify_email (cfg : config) (w : world) (url : string) (hits : list target) : M unit :=
  if negb (nonempty (SMTP_HOST cfg) && nonempty (EMAIL_FROM cfg) && nonempty (EMAIL_TO cfg))
  then ret tt
  else
    let n := str_int (Z.of_nat (List.length hits)) in
    let subject := ("[watcher] " ++ n ++ " new match(es)")%string in
    let body := (n ++ " new match(es) found while checking " ++ url ++ nl ++ nl ++
                 "Monitored hosts: " ++ join ", " (MONITORED_HOSTS cfg) ++ nl ++ nl ++
                 format_hits hits ++ nl)%string in
    try_except
      (smtp_session cfg w subject body)
      (fun e => eprint ("Email notify failed: " ++ e)%string).

(** ** Fetching the feed *)

(** [fetch_targets] *)
Definition fetch_targets (cfg : config) (w : world) (url : string) : M (list entry) :=
  emit (EvGet url) ;;
  match feed w with
  | FeedTargets targets => ret targets
  | FeedError e =>
      let error_msg := ("Failed to fetch targets from " ++ url ++ ": " ++ e)%string in
      eprint ("ERROR: " ++ error_msg)%string ;;
      (if nonempty (SLACK_WEBHOOK cfg) then
         try_except
           (let text := (":warning: Target Watcher Error :warning:" ++ nl ++ nl ++
                         "*" ++ SLACK_TITLE cfg ++ "*: " ++ error_msg ++ nl ++
                         "_host: " ++ hostname w ++ "_")%string in
            _ <- http_post w (SLACK_WEBHOOK cfg) text ;; ret tt)
           (fun e' => eprint ("ERROR: Failed to send error notification to Slack: " ++ e')%string)
       else ret tt) ;;
      raise e
  end.

(** ** The cycle *)

(** [main].  [seen] is the very dictionary stored in [state], so the state
    saved at the end holds the identifiers inserted by the loop. *)
Definition main (cfg : config) (w : world) (url : string) : M unit :=
  match MONITORED_HOSTS cfg with
  | [] =>
      eprint "ERROR: Set MONITORED_HOSTS (e.g. MONITORED_HOSTS='op.fi,kela.fi')" ;;
      sys_exit 2
  | _ :: _ =>
      doc <- load_state cfg ;;
      seen <- setdefault_seen doc ;;
      targets <- fetch_targets cfg w url ;;
      let r := scan (MONITORED_HOSTS cfg) seen targets in
      let state := mkState (Some (fst r)) in
      let hits := snd r in
      match hits with
      | _ :: _ =>
          notify_slack cfg w url hits ;;
          notify_email cfg w url hits ;;
          print ("Found " ++ str_int (Z.of_nat (List.length hits)) ++ " new matches.")%string ;;
          save_state cfg state
      | [] =>
          print "No new matches." ;;
          if negb (SLACK_SUPPRESS_EMPTY cfg) then notify_slack cfg w url [] else ret tt
      end
  end.

(** The script: the check of [TARGETS_URL] at import time, then [main]
    under the outermost [try]; yields the exit status and the final machine. *)
Definition program (cfg : config) (w : world) (f : file_state) : Z * machine :=
  let m0 := mkMachine [] f in
  match URL cfg with
  | Some (String c u) =>
      match main cfg w (String c u) m0 with
      | (Ret _, m) => (0%Z, m)
      | (Raise e, m) => (1%Z, mkMachine (trace m ++ [EvErr ("ERROR: " ++ e)%string]) (file m))
      | (Exit code, m) => (code, m)
      end
  | _ =>
      (2%Z, mkMachine [EvErr "ERROR: Set TARGETS_URL in environment file"] f)
  end.

(** Events that reach the network. *)
Definition is_network (ev : event) : bool :=
  match ev with
  | EvGet _ | EvPost _ _ | EvSmtp _ _ _ _ _ _ _ => true
  | _ => false
  end.

Definition is_smtp (ev : event) : bool :=
  match ev with
  | EvSmtp _ _ _ _ _ _ _ => true
  | _ => false
  end.

(** ** Observations on runs *)

(** The events a computation emits when started on an empty trace. *)
Definition events_of {A} (c : M A) : list event :=
  trace (snd (c (mkMachine [] NoFile))).

(** The seen set with which the loop of [main] starts when the state file
    is [f]: what [load_state] and [setdefault] hand over. *)
Definition initial_seen (cfg : config) (f : file_state) : dict bool :=
  match bind (load_state cfg) setdefault_seen (mkMachine [] f) with
  | (Ret seen, _) => seen
  | _ => []
  end.

(** The hits of the cycle that starts from the state file [f] on the feed
    [targets]. *)
Definition cycle_hits (cfg : config) (f : file_state) (targets : list entry) : list target :=
  snd (scan (MONITORED_HOSTS cfg) (initial_seen cfg f) targets).

(** The seen set at the end of that cycle's loop. *)
Definition cycle_seen (cfg : config) (f : file_state) (targets : list entry) : dict bool :=
  fst (scan (MONITORED_HOSTS cfg) (initial_seen cfg f) targets).

Definition exit_code (r : Z * machine) : Z := fst r.
Definition final_file (r : Z * machine) : file_state := file (snd r).
Definition run_trace (r : Z * machine) : list event := trace (snd r).


(** ** The groups a summary must hold *)

(** The hits filed under the normalised host [h], in feed order. *)
Definition hits_on (h : string) (hits : list target) : list target :=
  filter (fun t => (group_host t =? h)%string) hits.

(** The group of [h]: the number of its hits and the first [cap] non-empty
    example strings among them. *)
Definition expected_group (cap : Z) (h : string) (hits : list target) : group :=
  mkGroup (Z.of_nat (List.length (hits_on h hits)))
          (firstn (Z.to_nat cap) (filter nonempty (map example_of (hits_on h hits)))).



(** ** Sample data *)

(** A record with a host, a path, a method, a port and maybe an identifier. *)
Definition sample_target (h p m prt : string) (rid : field) : target :=
  mkTarget (Str h) (Str p) Missing (Str m) (Str prt) rid.

Definition sample_config : config :=
  mkConfig (Some "https://feed.example/targets.json") ["example.com"] true
    "https://hooks.example/T000" true 2 10 true "Target watcher"
    "smtp.example.com" 587 "watcher" "secret" "watcher@example.com" "soc@example.com".

Definition sample_world (targets : list entry) (hook : http_result) : world :=
  mkWorld (FeedTargets targets) hook None "probe-1".

(** The [i]-th record of a synthetic feed: a monitored host and the
    explicit identifier ["r<i>"]. *)
Definition numbered_id (i : nat) : string := ("r" ++ str_int (Z.of_nat i))%string.

Definition numbered_target (i : nat) : target :=
  mkTarget (Str "example.com") Missing Missing Missing Missing (Str (numbered_id i)).

Definition numbered_targets (first n : nat) : list target :=
  map numbered_target (seq first n).

(** A feed of [n] matching records with pairwise distinct identifiers. *)
Definition numbered_feed (n : nat) : list entry := map Target (numbered_targets 0 n).

(** The seen set after a first cycle over [n] numbered records. *)
Definition numbered_seen (a n : nat) : dict bool :=
  map (fun t => (rid_of t, true)) (numbered_targets a n).


(** ** The list of monitored hosts, from the environment *)

(** [s.split(sep)] for a one-character separator: the pieces between the
    separators, empty pieces included; never the empty list. *)
Fixpoint split_on (sep : ascii) (s : string) : list string :=
  match s with
  | EmptyString => [EmptyString]
  | String c s' =>
      if Ascii.eqb c sep then EmptyString :: split_on sep s'
      else match split_on sep s' with
           | [] => [String c EmptyString]
           | piece :: pieces => String c piece :: pieces
           end
  end.

(** [[h.strip().lower() for h in raw.split(",") if h.strip()]], where [raw]
    is the value of [MONITORED_HOSTS] (the empty string when unset). *)
Definition parse_monitored_hosts (raw : string) : list string :=
  map (fun h => lower (strip h))
      (filter (fun h => nonempty (strip h)) (split_on "," raw)).

(** ** Classes of events *)

Definition is_write (ev : event) : bool :=
  match ev with
  | EvWrite _ => true
  | _ => false
  end.


(** The keys of the seen set that a list of hits adds, in order. *)
Definition seen_entries (hits : list target) : dict bool :=
  map (fun t => (rid_of t, true)) hits.

(** The distinct elements of a list in order of first appearance. *)
Definition first_appearances (l : list string) : list string :=
  rev (nodup string_dec (rev l)).

(** The groups whose count is [c]. *)
Definition with_count (c : Z) (items : list (string * group)) : list (string * group) :=
  filter (fun kv => (count (snd kv) =? c)%Z) items.

(** An entry that the loop of [main] can act on: a record whose host
    matches. *)
Definition relevant (monitored : list string) (e : entry) : bool :=
  match e with
  | NotADict => false
  | Target t => host_ok monitored t
  end.

(** * Properties *)

(** ** Strings *)

Lemma append_nil_r (s : string) : (s ++ EmptyString)%string = s.
Proof. induction s as [|c s IH]; simpl; [reflexivity | now rewrite IH]. Qed.

Lemma append_assoc (a b c : string) : ((a ++ b) ++ c = a ++ (b ++ c))%string.
Proof. induction a as [|x a IH]; simpl; [reflexivity | now rewrite IH]. Qed.

Lemma length_append (a b : string) :
  length (a ++ b)%string = (length a + length b)%nat.
Proof. induction a as [|x a IH]; simpl; [reflexivity | now rewrite IH]. Qed.

Lemma drop_append (p s : string) : drop (length p) (p ++ s)%string = s.
Proof. induction p as [|c p IH]; simpl; [now destruct s | exact IH]. Qed.

Lemma drop_split (n : nat) (s : string) :
  exists p, s = (p ++ drop n s)%string.
Proof.
  revert s; induction n as [|n IH]; intros s.
  - exists EmptyString. now destruct s.
  - destruct s as [|c s]; simpl.
    + now exists EmptyString.
    + destruct (IH s) as [p Hp]. exists (String c p). simpl. now rewrite <- Hp.
Qed.

(** [endswith] decides the existence of a prefix. *)
Lemma endswith_spec (s suf : string) :
  endswith s suf = true <-> exists p, s = (p ++ suf)%string.
Proof.
  unfold endswith. rewrite andb_true_iff, Nat.leb_le, String.eqb_eq. split.
  - intros [_ H]. destruct (drop_split (length s - length suf) s) as [p Hp].
    exists p. now rewrite <- H.
  - intros [p ->]. rewrite length_append. split; [lia|].
    replace (length p + length suf - length suf)%nat with (length p) by lia.
    apply drop_append.
Qed.

Lemma append_inj_r (p a b : string) : (p ++ a = p ++ b)%string -> a = b.
Proof.
  induction p as [|c p IH]; simpl; intros H; [exact H|].
  injection H as H. now apply IH.
Qed.

Lemma append_inj_l (a b s : string) : (a ++ s = b ++ s)%string -> a = b.
Proof.
  revert b; induction a as [|c a IH]; intros [|d b] H; simpl in H.
  - reflexivity.
  - exfalso. apply (f_equal length) in H. simpl in H.
    rewrite length_append in H. lia.
  - exfalso. apply (f_equal length) in H. simpl in H.
    rewrite length_append in H. lia.
  - injection H as -> H. f_equal. now apply IH.
Qed.

(** ** Host matcher *)

Lemma host_under_spec (host m : string) :
  host_under host m = true <->
  host = normalize_host m \/
  exists p, host = (p ++ "." ++ normalize_host m)%string.
Proof.
  unfold host_under. cbv zeta.
  rewrite orb_true_iff, String.eqb_eq, endswith_spec. reflexivity.
Qed.

Lemma host_matches_loop_spec (monitored : list string) (host : string) :
  host_matches_loop monitored host = true <->
  exists m, In m monitored /\ host_under host m = true.
Proof.
  induction monitored as [|m rest IH]; simpl.
  - split; [discriminate | intros [m [[] _]]].
  - destruct (host_under host m) eqn:E.
    + split; [|reflexivity]. intros _. exists m. auto.
    + rewrite IH. split.
      * intros [m' [Hin H]]. exists m'. auto.
      * intros [m' [[->|Hin] H]]; [congruence | exists m'; auto].
Qed.

(** C3, as amended: [host_matches] holds exactly when the normalised host
    equals a normalised monitored entry or ends with a dot followed by it,
    where the normalisation lower-cases, trims surrounding white space and
    then strips one leading ["www."]; with the monitored list
    [["example.com"]], the hosts ["example.com"], ["api.example.com"] and
    ["www.example.com"] match and ["notexample.com"] does not. *)
Theorem host_matches_iff_suffix (M : list string) (h : string) :
  (host_matches M h = true <-> spec_matches normalize_host M h) /\
  normalize_host h =
    (let s := strip (lower h) in if startswith s "www." then drop 4 s else s) /\
  host_matches ["example.com"] "example.com" = true /\
  host_matches ["example.com"] "api.example.com" = true /\
  host_matches ["example.com"] "www.example.com" = true /\
  host_matches ["example.com"] "notexample.com" = false.
Proof.
  split; [|repeat split; reflexivity].
  unfold host_matches, spec_matches. rewrite host_matches_loop_spec.
  split; intros [m [Hin H]]; exists m; (split; [exact Hin|]);
    now apply host_under_spec.
Qed.

(** C3, as worded, fails: with the normalisation that only lower-cases and
    strips ["www."], a host with a leading blank is matched by the code but
    not by the rule. *)
Lemma host_matches_trims_whitespace :
  host_matches ["example.com"] " example.com" = true /\
  ~ spec_matches spec_normalized ["example.com"] " example.com".
Proof.
  split; [reflexivity|].
  intros [m [[<-|[]] [H|H]]].
  - discriminate H.
  - apply endswith_spec in H. discriminate H.
Qed.

(** ** Dictionaries *)

Section DictFacts.
Context {V : Type}.
Implicit Types (d : dict V) (k : string) (v : V).

Lemma dict_contains_set k k' v d :
  dict_contains k (dict_set k' v d) = (k' =? k)%string || dict_contains k d.
Proof.
  induction d as [|[k0 v0] d IH]; simpl.
  - now destruct (k' =? k)%string.
  - destruct (k0 =? k')%string eqn:E0; simpl.
    + apply String.eqb_eq in E0; subst k0.
      destruct (k' =? k)%string; reflexivity.
    + rewrite IH. destruct (k0 =? k)%string, (k' =? k)%string; reflexivity.
Qed.

Lemma dict_contains_app k d d' :
  dict_contains k (d ++ d') = dict_contains k d || dict_contains k d'.
Proof.
  induction d as [|[k0 v0] d IH]; simpl; [reflexivity|].
  destruct (k0 =? k)%string; [reflexivity | exact IH].
Qed.

Lemma dict_contains_In k d :
  dict_contains k d = true <-> In k (dict_keys d).
Proof.
  induction d as [|[k0 v0] d IH]; simpl.
  - split; [discriminate | tauto].
  - destruct (String.eqb_spec k0 k) as [->|Hne].
    + split; auto.
    + rewrite IH. split; [auto | intros [H|H]; [contradiction | exact H]].
Qed.

Lemma dict_get_contains k d :
  dict_contains k d = match dict_get k d with Some _ => true | None => false end.
Proof.
  induction d as [|[k0 v0] d IH]; simpl; [reflexivity|].
  destruct (k0 =? k)%string; [reflexivity | exact IH].
Qed.

(** A new key goes to the end. *)
Lemma dict_set_fresh k v d :
  dict_contains k d = false -> dict_set k v d = d ++ [(k, v)].
Proof.
  induction d as [|[k0 v0] d IH]; simpl; [reflexivity|].
  destruct (k0 =? k)%string; [discriminate|].
  intros H. now rewrite IH.
Qed.

Lemma dict_keys_set k v d :
  dict_keys (dict_set k v d) =
  if dict_contains k d then dict_keys d else dict_keys d ++ [k].
Proof.
  induction d as [|[k0 v0] d IH]; simpl; [reflexivity|].
  destruct (k0 =? k)%string eqn:E; simpl; [reflexivity|].
  rewrite IH. now destruct (dict_contains k d).
Qed.

Lemma dict_get_set k k' v d :
  dict_get k (dict_set k' v d) = if (k' =? k)%string then Some v else dict_get k d.
Proof.
  induction d as [|[k0 v0] d IH]; simpl.
  - reflexivity.
  - destruct (String.eqb_spec k0 k') as [->|Hne]; simpl.
    + destruct (k' =? k)%string; reflexivity.
    + rewrite IH. destruct (String.eqb_spec k0 k) as [->|Hne'].
      * destruct (String.eqb_spec k' k) as [->|_]; [contradiction | reflexivity].
      * reflexivity.
Qed.


(** Deleting the first [n] listed keys, one after the other, leaves the
    entries from position [n] on. *)
Lemma del_first_keys (n : nat) d :
  fold_left (fun d k => dict_del k d) (firstn n (dict_keys d)) d = skipn n d.
Proof.
  revert d; induction n as [|n IH]; intros [|[k v] d]; simpl; try reflexivity.
  rewrite String.eqb_refl. apply IH.
Qed.
End DictFacts.

(** ** The matching loop *)

Section Loop.
Variable monitored : list string.

Lemma visit_spec (acc : dict bool * list target) (e : entry) :
  visit monitored acc e =
  if is_hit monitored (fst acc) e
  then match e with
       | Target t => (dict_set (rid_of t) true (fst acc), snd acc ++ [t])
       | NotADict => acc
       end
  else acc.
Proof.
  destruct e as [|t]; simpl; [reflexivity|].
  destruct (host_ok monitored t); simpl; [|reflexivity].
  destruct (dict_contains (rid_of t) (fst acc)); reflexivity.
Qed.

(** A record that is not a hit leaves [seen] and [hits] as they are. *)
Lemma visit_no_hit acc e :
  is_hit monitored (fst acc) e = false -> visit monitored acc e = acc.
Proof. intros H. now rewrite visit_spec, H. Qed.

(** The seen set only grows. *)
Lemma visit_keeps_seen acc e k :
  dict_contains k (fst acc) = true ->
  dict_contains k (fst (visit monitored acc e)) = true.
Proof.
  intros H. rewrite visit_spec.
  destruct (is_hit monitored (fst acc) e); [|exact H].
  destruct e; simpl; [exact H|].
  rewrite dict_contains_set, H. apply orb_true_r.
Qed.

Lemma loop_keeps_seen es acc k :
  dict_contains k (fst acc) = true ->
  dict_contains k (fst (fold_left (visit monitored) es acc)) = true.
Proof.
  revert acc; induction es as [|e es IH]; intros acc H; simpl; [exact H|].
  apply IH. now apply visit_keeps_seen.
Qed.

(** After a matching record has been visited its identifier is seen. *)
Lemma visit_records_rid acc t :
  host_ok monitored t = true ->
  dict_contains (rid_of t) (fst (visit monitored acc (Target t))) = true.
Proof.
  intros H. simpl. rewrite H.
  destruct (dict_contains (rid_of t) (fst acc)) eqn:E; simpl; [exact E|].
  rewrite dict_contains_set, String.eqb_refl. reflexivity.
Qed.

(** A later record with the identifier and matching status of an earlier
    one changes nothing: the loop runs as if it were not in the feed. *)
Lemma loop_skips_repeat acc pre mid post t1 t2 :
  rid_of t1 = rid_of t2 ->
  host_ok monitored t1 = host_ok monitored t2 ->
  fold_left (visit monitored) (pre ++ Target t1 :: mid ++ Target t2 :: post) acc =
  fold_left (visit monitored) (pre ++ Target t1 :: mid ++ post) acc.
Proof.
  intros Hrid Hok.
  rewrite !fold_left_app. cbn [fold_left]. rewrite !fold_left_app.
  cbn [fold_left]. f_equal. apply visit_no_hit. cbn [is_hit].
  destruct (host_ok monitored t2) eqn:E2; [|reflexivity]. simpl.
  rewrite <- Hrid, loop_keeps_seen; [reflexivity|].
  apply visit_records_rid. congruence.
Qed.

(** The hits found so far are never touched again. *)
Lemma loop_hits_prefix es seen hits :
  snd (fold_left (visit monitored) es (seen, hits)) =
  hits ++ snd (fold_left (visit monitored) es (seen, [])) /\
  fst (fold_left (visit monitored) es (seen, hits)) =
  fst (fold_left (visit monitored) es (seen, [])).
Proof.
  revert seen hits; induction es as [|e es IH]; intros seen hits; simpl.
  - now rewrite app_nil_r.
  - rewrite !visit_spec. simpl.
    destruct (is_hit monitored seen e); [|apply IH].
    destruct e as [|t]; [apply IH|]. simpl.
    destruct (IH (dict_set (rid_of t) true seen) (hits ++ [t])) as [-> ->].
    destruct (IH (dict_set (rid_of t) true seen) [t]) as [-> ->].
    now rewrite app_assoc.
Qed.

(** If every matching record is already seen, the loop changes nothing. *)
Lemma loop_all_seen es seen hits :
  (forall t, In (Target t) es -> host_ok monitored t = true ->
             dict_contains (rid_of t) seen = true) ->
  fold_left (visit monitored) es (seen, hits) = (seen, hits).
Proof.
  induction es as [|e es IH]; intros H; cbn [fold_left]; [reflexivity|].
  rewrite visit_no_hit.
  - apply IH. intros t Hin. apply H. now right.
  - destruct e as [|t]; simpl; [reflexivity|].
    destruct (host_ok monitored t) eqn:E; [|reflexivity].
    rewrite (H t); [reflexivity | now left | exact E].
Qed.



(** After the loop every matching record of the feed is seen. *)
Lemma scan_records_all seen es t :
  In (Target t) es -> host_ok monitored t = true ->
  dict_contains (rid_of t) (fst (scan monitored seen es)) = true.
Proof.
  unfold scan. generalize (seen, @nil target) as acc.
  induction es as [|e es IH]; intros acc Hin Hok; [destruct Hin|].
  cbn [fold_left]. destruct Hin as [->|Hin].
  - apply loop_keeps_seen. now apply visit_records_rid.
  - now apply IH.
Qed.

(** Each hit adds one identifier. *)
Lemma scan_size seen es :
  dict_len (fst (scan monitored seen es)) =
  (dict_len seen + Z.of_nat (List.length (snd (scan monitored seen es))))%Z.
Proof.
  unfold scan.
  assert (G : forall acc,
    dict_len (fst (fold_left (visit monitored) es acc)) =
    (dict_len (fst acc) +
     Z.of_nat (List.length (snd (fold_left (visit monitored) es acc)))
     - Z.of_nat (List.length (snd acc)))%Z).
  { induction es as [|e es IH]; intros acc; simpl; [lia|].
    rewrite IH, visit_spec.
    destruct (is_hit monitored (fst acc) e) eqn:E; [|lia].
    destruct e as [|t]; [lia|]. simpl in *.
    apply andb_true_iff in E as [_ E]. apply negb_true_iff in E.
    rewrite (dict_set_fresh _ _ _ E). unfold dict_len.
    rewrite !length_app. simpl. lia. }
  rewrite G. simpl. lia.
Qed.

(** Fresh, pairwise distinct identifiers on matching hosts are all hits,
    appended to the seen set in feed order. *)
Lemma scan_fresh ts seen :
  Forall (fun t => host_ok monitored t = true) ts ->
  NoDup (map rid_of ts) ->
  (forall t, In t ts -> dict_contains (rid_of t) seen = false) ->
  scan monitored seen (map Target ts) =
  (seen ++ map (fun t => (rid_of t, true)) ts, ts).
Proof.
  unfold scan.
  assert (G : forall hits seen,
    Forall (fun t => host_ok monitored t = true) ts ->
    NoDup (map rid_of ts) ->
    (forall t, In t ts -> dict_contains (rid_of t) seen = false) ->
    fold_left (visit monitored) (map Target ts) (seen, hits) =
    (seen ++ map (fun t => (rid_of t, true)) ts, hits ++ ts)).
  { induction ts as [|t ts IH]; intros hits seen0 Hok Hnd Hfresh; simpl.
    - now rewrite !app_nil_r.
    - inversion Hok as [|? ? Ht Hok']; subst.
      inversion Hnd as [|? ? Hnot Hnd']; subst.
      rewrite Ht, (Hfresh t (or_introl eq_refl)). simpl.
      rewrite IH; try assumption.
      + rewrite (dict_set_fresh _ _ _ (Hfresh t (or_introl eq_refl))).
        now rewrite <- !app_assoc.
      + intros t' Hin. rewrite dict_contains_set, (Hfresh t' (or_intror Hin)).
        rewrite orb_false_r. apply String.eqb_neq. intros Heq.
        apply Hnot. rewrite Heq. now apply in_map. }
  intros. now rewrite G.
Qed.
End Loop.

(** ** Identifiers *)

Lemma rid_of_derived (t : target) :
  truthy (get (request_id t)) = false -> rid_of t = derived_id t.
Proof. unfold rid_of, py_or. now intros ->. Qed.

Lemma derived_id_same_fields (t u : target) :
  host t = host u -> path t = path u -> type_ t = type_ u -> method t = method u ->
  derived_id t = derived_id u.
Proof. unfold derived_id. now intros -> -> -> ->. Qed.

Lemma host_ok_same_host (M : list string) (t u : target) :
  host t = host u -> host_ok M t = host_ok M u.
Proof. unfold host_ok. now intros ->. Qed.

(** C4: two records with the same host, path, type and method and no
    [request_id] get the same derived identifier, and in one cycle the later
    one is never a hit: the loop runs as if it were not in the feed, so at
    most one of the two is reported. *)
Theorem derived_id_deduplicates
    (M : list string) (seen : dict bool) (pre mid post : list entry) (t1 t2 : target) :
  request_id t1 = Missing -> request_id t2 = Missing ->
  host t1 = host t2 -> path t1 = path t2 ->
  type_ t1 = type_ t2 -> method t1 = method t2 ->
  rid_of t1 = derived_id t1 /\
  rid_of t1 = rid_of t2 /\
  is_hit M (fst (scan M seen (pre ++ Target t1 :: mid))) (Target t2) = false /\
  scan M seen (pre ++ Target t1 :: mid ++ Target t2 :: post) =
  scan M seen (pre ++ Target t1 :: mid ++ post).
Proof.
  intros R1 R2 Hh Hp Ht Hm.
  assert (E1 : rid_of t1 = derived_id t1) by (apply rid_of_derived; now rewrite R1).
  assert (E2 : rid_of t2 = derived_id t2) by (apply rid_of_derived; now rewrite R2).
  assert (E : rid_of t1 = rid_of t2).
  { rewrite E1, E2. now apply derived_id_same_fields. }
  pose proof (host_ok_same_host M t1 t2 Hh) as Hok.
  repeat split; try assumption.
  - cbn [is_hit]. destruct (host_ok M t2) eqn:E3; [|reflexivity]. simpl.
    rewrite <- E, scan_records_all; [reflexivity | | congruence].
    apply in_or_app. right. now left.
  - unfold scan. now apply loop_skips_repeat.
Qed.

Lemma derived_id_deduplicates_witness :
  let a := sample_target "api.example.com" "/login" "post" "443" Missing in
  let b := sample_target "api.example.com" "/login" "post" "8443" Missing in
  rid_of a = "api.example.com:/login::post" /\
  snd (scan ["example.com"] [] [Target a; Target b]) = [a].
Proof.
  intros a b.
  destruct (derived_id_deduplicates ["example.com"] [] [] [] [] a b)
    as [H1 [H2 [H3 H4]]]; try reflexivity.
  split; [exact H1|]. simpl app in H4. rewrite H4. reflexivity.
Defined.

(** C9: a record whose [request_id] is the empty string gets the derived
    identifier, exactly as a record [u] without the field does; with the
    same host, path, type and method the two share their identifier and
    whichever comes second in a cycle is not a hit. *)
Theorem empty_request_id_falls_back
    (M : list string) (seen : dict bool) (pre mid post : list entry) (t u : target) :
  request_id t = Str EmptyString -> request_id u = Missing ->
  host t = host u -> path t = path u ->
  type_ t = type_ u -> method t = method u ->
  rid_of t = derived_id t /\
  rid_of t = rid_of u /\
  is_hit M seen (Target t) = is_hit M seen (Target u) /\
  scan M seen (pre ++ Target u :: mid ++ Target t :: post) =
  scan M seen (pre ++ Target u :: mid ++ post) /\
  scan M seen (pre ++ Target t :: mid ++ Target u :: post) =
  scan M seen (pre ++ Target t :: mid ++ post).
Proof.
  intros R1 R2 Hh Hp Ht Hm.
  assert (E1 : rid_of t = derived_id t) by (apply rid_of_derived; now rewrite R1).
  assert (E2 : rid_of u = derived_id u) by (apply rid_of_derived; now rewrite R2).
  assert (E : rid_of t = rid_of u).
  { rewrite E1, E2. now apply derived_id_same_fields. }
  pose proof (host_ok_same_host M t u Hh) as Hok.
  repeat split; try assumption.
  - cbn [is_hit]. now rewrite E, Hok.
  - unfold scan. now apply loop_skips_repeat.
  - unfold scan. now apply loop_skips_repeat.
Qed.

Lemma empty_request_id_falls_back_witness :
  let t := sample_target "example.com" "/" "get" "80" (Str EmptyString) in
  let u := sample_target "example.com" "/" "get" "80" Missing in
  rid_of t = "example.com:/::get" /\
  snd (scan ["example.com"] [] [Target u; Target t]) = [u] /\
  snd (scan ["example.com"] [] [Target t; Target u]) = [t].
Proof.
  intros t u.
  destruct (empty_request_id_falls_back ["example.com"] [] [] [] [] t u)
    as [H1 [H2 [H3 [H4 H5]]]]; try reflexivity.
  split; [exact H1|]. simpl app in H4, H5. rewrite H4, H5.
  split; reflexivity.
Defined.

(** C10: the derived identifier is built from the host as it stands in the
    record.  Two records without [request_id] whose hosts are different
    strings with the same normal form (they differ in letter case or in a
    leading ["www."]), and whose other fields agree, get different
    identifiers; when both match and neither identifier is seen yet, both
    are hits of the cycle. *)
Theorem raw_host_identifiers_differ
    (M : list string) (seen : dict bool) (t1 t2 : target) (h1 h2 : string) :
  request_id t1 = Missing -> request_id t2 = Missing ->
  host t1 = Str h1 -> host t2 = Str h2 ->
  h1 <> h2 -> normalize_host h1 = normalize_host h2 ->
  path t1 = path t2 -> type_ t1 = type_ t2 -> method t1 = method t2 ->
  host_ok M t1 = true -> host_ok M t2 = true ->
  dict_contains (rid_of t1) seen = false ->
  dict_contains (rid_of t2) seen = false ->
  rid_of t1 <> rid_of t2 /\
  scan M seen [Target t1; Target t2] =
  (seen ++ [(rid_of t1, true); (rid_of t2, true)], [t1; t2]).
Proof.
  intros R1 R2 H1 H2 Hne _ Hp Ht Hm Hok1 Hok2 F1 F2.
  assert (D : rid_of t1 <> rid_of t2).
  { rewrite !rid_of_derived by (rewrite ?R1, ?R2; reflexivity).
    unfold derived_id. rewrite H1, H2, Hp, Ht, Hm. simpl fmt.
    intros E. apply append_inj_l in E. contradiction. }
  split; [exact D|].
  apply (scan_fresh M [t1; t2] seen).
  - repeat constructor; assumption.
  - repeat constructor; simpl; intuition.
  - intros t [<-|[<-|[]]]; assumption.
Qed.

Lemma raw_host_identifiers_differ_witness :
  let a := sample_target "WWW.Example.com" "/login" "post" "443" Missing in
  let b := sample_target "example.com" "/login" "post" "443" Missing in
  rid_of a <> rid_of b /\
  scan ["example.com"] [] [Target a; Target b] =
  ([("WWW.Example.com:/login::post", true); ("example.com:/login::post", true)], [a; b]).
Proof.
  intros a b.
  apply (raw_host_identifiers_differ ["example.com"] [] a b
           "WWW.Example.com" "example.com");
    try reflexivity; discriminate.
Defined.

(** ** The sinks and the fetch, as trace transformers *)

(** Runs the monad operations of a goal down to pairs of an outcome and a
    machine. *)
Ltac run_monad :=
  repeat progress
    unfold try_except, http_post, smtp_session, raise_for_status,
           print, eprint, bind, emit, raise, ret;
  cbn [trace file fst snd app].


Section Runs.
Variables (cfg : config) (w : world) (url : string).

(** [notify_slack] always returns; it only appends events. *)
Lemma notify_slack_run (hits : list target) (m : machine) :
  notify_slack cfg w url hits m =
  (Ret tt, mkMachine (trace m ++ events_of (notify_slack cfg w url hits)) (file m)).
Proof.
  unfold events_of, notify_slack.
  destruct (negb (nonempty (SLACK_WEBHOOK cfg))).
  { unfold ret. cbn. rewrite app_nil_r. now destruct m. }
  destruct (match hits with [] => true | _ => false end && SLACK_SUPPRESS_EMPTY cfg).
  { unfold ret. cbn. rewrite app_nil_r. now destruct m. }
  run_monad.
  destruct (webhook w); cbn [trace file fst snd app]; rewrite <- ?app_assoc; reflexivity.
Qed.

(** [notify_email] always returns; it only appends events. *)
Lemma notify_email_run (hits : list target) (m : machine) :
  notify_email cfg w url hits m =
  (Ret tt, mkMachine (trace m ++ events_of (notify_email cfg w url hits)) (file m)).
Proof.
  unfold events_of, notify_email.
  destruct (negb (nonempty (SMTP_HOST cfg) && nonempty (EMAIL_FROM cfg) && nonempty (EMAIL_TO cfg))).
  { unfold ret. cbn. rewrite app_nil_r. now destruct m. }
  run_monad.
  destruct (smtp w); cbn [trace file fst snd app]; rewrite <- ?app_assoc; reflexivity.
Qed.

Lemma fetch_targets_ok (targets : list entry) (m : machine) :
  feed w = FeedTargets targets ->
  fetch_targets cfg w url m = (Ret targets, mkMachine (trace m ++ [EvGet url]) (file m)).
Proof.
  intros H. unfold fetch_targets, bind, emit, ret. rewrite H. reflexivity.
Qed.

(** A failed fetch ends in the exception of the GET, whatever the
    webhook answers; the state file is not touched. *)
Lemma fetch_targets_error (e : string) (m : machine) :
  feed w = FeedError e ->
  fetch_targets cfg w url m =
  (Raise e, mkMachine (trace m ++ events_of (fetch_targets cfg w url)) (file m)).
Proof.
  intros H. unfold events_of, fetch_targets. rewrite H. run_monad.
  destruct (nonempty (SLACK_WEBHOOK cfg)).
  - run_monad.
    destruct (webhook w); cbn [trace file fst snd app]; rewrite <- ?app_assoc;
      reflexivity.
  - rewrite <- ?app_assoc. reflexivity.
Qed.


(** The loaded seen set, case by case. *)
Lemma load_then_setdefault (m : machine) :
  (USE_STATE cfg = true -> file m <> Json JOther) ->
  bind (load_state cfg) setdefault_seen m = (Ret (initial_seen cfg (file m)), m).
Proof.
  intros H. unfold initial_seen, bind, load_state.
  destruct (USE_STATE cfg); cbn [negb]; [|reflexivity].
  cbn [file]. destruct (file m) as [| | |[s|]]; try reflexivity.
  - cbn. destruct (seen_request_ids s); reflexivity.
  - now destruct H.
Qed.

(** The cycle in closed form, when the feed answers. *)
Lemma main_cycle (targets : list entry) (m : machine) :
  MONITORED_HOSTS cfg <> [] ->
  feed w = FeedTargets targets ->
  (USE_STATE cfg = true -> file m <> Json JOther) ->
  let hits := cycle_hits cfg (file m) targets in
  let state := mkState (Some (cycle_seen cfg (file m) targets)) in
  main cfg w url m =
  match hits with
  | [] =>
      (Ret tt,
       mkMachine (trace m ++ EvGet url :: EvOut "No new matches." ::
                  (if negb (SLACK_SUPPRESS_EMPTY cfg)
                   then events_of (notify_slack cfg w url []) else []))
                 (file m))
  | _ :: _ =>
      (Ret tt,
       mkMachine (trace m ++ EvGet url ::
                  events_of (notify_slack cfg w url hits) ++
                  events_of (notify_email cfg w url hits) ++
                  EvOut ("Found " ++ str_int (Z.of_nat (List.length hits)) ++
                         " new matches.")%string ::
                  (if USE_STATE cfg then [EvWrite (persisted state)] else []))
                 (if USE_STATE cfg then Json (JObject (persisted state)) else file m))
  end.
Proof.
  intros HM Hfeed Hfile hits state. unfold main.
  destruct (MONITORED_HOSTS cfg) as [|m0 ms] eqn:EM; [now destruct HM|].
  rewrite <- EM.
  pose proof (load_then_setdefault m Hfile) as L.
  unfold bind in L |- *.
  destruct (load_state cfg m) as [[doc| |] m1]; try discriminate L.
  destruct (setdefault_seen doc m1) as [[seen| |] m2]; try discriminate L.
  injection L as -> ->.
  rewrite (fetch_targets_ok targets m Hfeed).
  subst hits state. unfold cycle_hits, cycle_seen.
  destruct (snd (scan (MONITORED_HOSTS cfg) (initial_seen cfg (file m)) targets))
    as [|h hs] eqn:EH.
  - unfold print, emit. cbn [trace file].
    destruct (negb (SLACK_SUPPRESS_EMPTY cfg)).
    + rewrite notify_slack_run. cbn [trace file]. now rewrite <- !app_assoc.
    + unfold ret. now rewrite <- !app_assoc.
  - rewrite notify_slack_run. rewrite notify_email_run. cbn [trace file].
    unfold print, emit, save_state, write_state, ret. cbn [trace file].
    destruct (USE_STATE cfg); cbn [negb trace file];
      rewrite <- !app_assoc; reflexivity.
Qed.
End Runs.

(** ** The script, path by path *)

Section Program.
Variables (cfg : config) (w : world).

Lemma program_no_url (f : file_state) :
  URL cfg = None \/ URL cfg = Some EmptyString ->
  program cfg w f =
  (2%Z, mkMachine [EvErr "ERROR: Set TARGETS_URL in environment file"] f).
Proof. unfold program. intros [-> | ->]; reflexivity. Qed.

Lemma program_runs_main (url : string) (f : file_state) :
  URL cfg = Some url -> nonempty url = true ->
  program cfg w f =
  match main cfg w url (mkMachine [] f) with
  | (Ret _, m) => (0%Z, m)
  | (Raise e, m) => (1%Z, mkMachine (trace m ++ [EvErr ("ERROR: " ++ e)%string]) (file m))
  | (Exit code, m) => (code, m)
  end.
Proof.
  unfold program. intros -> H. destruct url; [discriminate H | reflexivity].
Qed.

Lemma main_no_hosts (url : string) (m : machine) :
  MONITORED_HOSTS cfg = [] ->
  main cfg w url m =
  (Exit 2,
   mkMachine (trace m ++
              [EvErr "ERROR: Set MONITORED_HOSTS (e.g. MONITORED_HOSTS='op.fi,kela.fi')"])
             (file m)).
Proof. unfold main. intros ->. reflexivity. Qed.

Lemma main_bad_state (url : string) (m : machine) :
  MONITORED_HOSTS cfg <> [] -> USE_STATE cfg = true -> file m = Json JOther ->
  main cfg w url m = (Raise "object has no attribute 'setdefault'", m).
Proof.
  intros HM HU HF. unfold main.
  destruct (MONITORED_HOSTS cfg); [now destruct HM|].
  unfold bind, load_state. rewrite HU, HF. reflexivity.
Qed.

Lemma main_fetch_error (url e : string) (m : machine) :
  MONITORED_HOSTS cfg <> [] -> feed w = FeedError e ->
  (USE_STATE cfg = true -> file m <> Json JOther) ->
  main cfg w url m =
  (Raise e, mkMachine (trace m ++ events_of (fetch_targets cfg w url)) (file m)).
Proof.
  intros HM Hfeed Hfile. unfold main.
  destruct (MONITORED_HOSTS cfg); [now destruct HM|].
  pose proof (load_then_setdefault cfg m Hfile) as L.
  unfold bind in L |- *.
  destruct (load_state cfg m) as [[doc| |] m1]; try discriminate L.
  destruct (setdefault_seen doc m1) as [[seen| |] m2]; try discriminate L.
  injection L as -> ->.
  now rewrite (fetch_targets_error cfg w url e m Hfeed).
Qed.
End Program.



(** ** Configuration errors *)

(** C8: with an empty list of monitored hosts, or without a feed URL, the
    program exits with status 2; its trace holds no GET, no POST and no SMTP
    session, and the state file is left as it was. *)
Theorem configuration_error_exits_2 (cfg : config) (w : world) (f : file_state) :
  MONITORED_HOSTS cfg = [] \/ URL cfg = None \/ URL cfg = Some EmptyString ->
  exit_code (program cfg w f) = 2%Z /\
  filter is_network (run_trace (program cfg w f)) = [] /\
  final_file (program cfg w f) = f.
Proof.
  unfold exit_code, run_trace, final_file.
  intros [HM | HU].
  - destruct (URL cfg) as [[|c u]|] eqn:EU.
    + rewrite program_no_url by auto. repeat split.
    + rewrite (program_runs_main cfg w (String c u) f EU eq_refl).
      rewrite main_no_hosts by exact HM. repeat split.
    + rewrite program_no_url by auto. repeat split.
  - rewrite program_no_url by exact HU. repeat split.
Qed.

Lemma configuration_error_exits_2_witness :
  let cfg := mkConfig (Some "https://feed.example/targets.json") [] true
               "https://hooks.example/T000" true 2 10 true "Target watcher"
               "smtp.example.com" 587 "watcher" "secret"
               "watcher@example.com" "soc@example.com" in
  let w := sample_world (numbered_feed 3) Http2xx in
  exit_code (program cfg w NoFile) = 2%Z /\
  filter is_network (run_trace (program cfg w NoFile)) = [] /\
  final_file (program cfg w NoFile) = NoFile.
Proof.
  intros cfg w. apply (configuration_error_exits_2 cfg w NoFile).
  left. reflexivity.
Defined.

(** ** Loading the state *)

Lemma initial_seen_failed_load (cfg : config) (f : file_state) :
  f = NoFile \/ f = Unreadable \/ f = Malformed -> initial_seen cfg f = [].
Proof.
  unfold initial_seen, bind, load_state.
  intros [-> | [-> | ->]]; destruct (USE_STATE cfg); reflexivity.
Qed.




(** ** Sink independence *)




(** ** The state store *)

Lemma evict_is_skipn (seen : dict bool) :
  evict seen = skipn (Z.to_nat 10000) seen.
Proof. apply del_first_keys. Qed.

Lemma persisted_spec (seen : dict bool) :
  persisted (mkState (Some seen)) =
  mkState (Some (if (50000 <? dict_len seen)%Z
                 then skipn (Z.to_nat 10000) seen else seen)).
Proof.
  unfold persisted. cbn [seen_request_ids].
  destruct (50000 <? dict_len seen)%Z; [now rewrite evict_is_skipn | reflexivity].
Qed.

Lemma dict_len_skipn (n : nat) (seen : dict bool) :
  dict_len (skipn n seen) = Z.max 0 (dict_len seen - Z.of_nat n).
Proof. unfold dict_len. rewrite length_skipn. lia. Qed.

(** What a cycle leaves in the state file, in stateful mode. *)
Lemma program_cycle_file (cfg : config) (w : world) (f : file_state)
    (url : string) (targets : list entry) :
  USE_STATE cfg = true -> URL cfg = Some url -> nonempty url = true ->
  MONITORED_HOSTS cfg <> [] -> feed w = FeedTargets targets -> f <> Json JOther ->
  exit_code (program cfg w f) = 0%Z /\
  final_file (program cfg w f) =
  match cycle_hits cfg f targets with
  | [] => f
  | _ :: _ => Json (JObject (persisted (mkState (Some (cycle_seen cfg f targets)))))
  end /\
  run_trace (program cfg w f) =
  match cycle_hits cfg f targets with
  | [] => EvGet url :: EvOut "No new matches." ::
          (if negb (SLACK_SUPPRESS_EMPTY cfg)
           then events_of (notify_slack cfg w url []) else [])
  | hits =>
      EvGet url :: events_of (notify_slack cfg w url hits) ++
      events_of (notify_email cfg w url hits) ++
      [EvOut ("Found " ++ str_int (Z.of_nat (List.length hits)) ++ " new matches.")%string;
       EvWrite (persisted (mkState (Some (cycle_seen cfg f targets))))]
  end.
Proof.
  intros HU EU Hurl HM Hfeed Hf. unfold exit_code, final_file, run_trace.
  rewrite (program_runs_main cfg w url f EU Hurl).
  rewrite (main_cycle cfg w url targets _ HM Hfeed) by (cbn [file]; auto).
  cbn [file trace]. rewrite HU.
  destruct (cycle_hits cfg f targets); cbn [fst snd file trace app]; auto.
Qed.


(** ** A feed of numbered records *)

Lemma str_int_inj (a b : Z) : str_int a = str_int b -> a = b.
Proof.
  assert (N : forall z, Z.to_int z <> Decimal.Pos Decimal.Nil /\
                        Z.to_int z <> Decimal.Neg Decimal.Nil).
  { intros [|p|p]; split; cbn; try discriminate;
      intros [= H]; now apply (Unsigned.to_uint_nonnil p). }
  unfold str_int. intros H.
  apply (f_equal NilZero.int_of_string) in H.
  rewrite !NilZero.isi in H by apply N.
  injection H as H. now apply DecimalZ.to_int_inj.
Qed.

Lemma numbered_id_inj (i j : nat) : numbered_id i = numbered_id j -> i = j.
Proof.
  unfold numbered_id. cbn [append]. intros [= H].
  apply str_int_inj in H. lia.
Qed.

Lemma rid_of_numbered (i : nat) : rid_of (numbered_target i) = numbered_id i.
Proof. reflexivity. Qed.

Lemma host_ok_numbered (i : nat) : host_ok ["example.com"] (numbered_target i) = true.
Proof. reflexivity. Qed.

Lemma numbered_rids (a n : nat) :
  map rid_of (numbered_targets a n) = map numbered_id (seq a n).
Proof. unfold numbered_targets. rewrite map_map. reflexivity. Qed.

Lemma numbered_rids_NoDup (a n : nat) : NoDup (map rid_of (numbered_targets a n)).
Proof.
  rewrite numbered_rids. apply Finite.Injective_map_NoDup.
  - intros i j. apply numbered_id_inj.
  - apply seq_NoDup.
Qed.

Lemma numbered_all_match (a n : nat) :
  Forall (fun t => host_ok ["example.com"] t = true) (numbered_targets a n).
Proof.
  unfold numbered_targets. apply Forall_forall. intros t Hin.
  apply in_map_iff in Hin as [i [<- _]]. apply host_ok_numbered.
Qed.

Lemma numbered_split (k n : nat) :
  (k <= n)%nat ->
  numbered_targets 0 n = numbered_targets 0 k ++ numbered_targets k (n - k).
Proof.
  intros H. unfold numbered_targets. rewrite <- map_app, <- seq_app.
  f_equal. f_equal. lia.
Qed.

Lemma numbered_seen_len (a n : nat) : dict_len (numbered_seen a n) = Z.of_nat n.
Proof.
  unfold dict_len, numbered_seen, numbered_targets.
  now rewrite !length_map, length_seq.
Qed.

Lemma numbered_seen_skipn (k n : nat) :
  (k <= n)%nat -> skipn k (numbered_seen 0 n) = numbered_seen k (n - k).
Proof.
  intros H. unfold numbered_seen. rewrite (numbered_split k n H), map_app.
  rewrite skipn_app.
  replace (k - List.length (map (fun t => (rid_of t, true)) (numbered_targets 0 k)))%nat
    with 0%nat.
  2: { unfold numbered_targets. rewrite !length_map, length_seq. lia. }
  rewrite skipn_all2; [reflexivity|].
  unfold numbered_targets. rewrite !length_map, length_seq. lia.
Qed.

(** From an empty seen set every numbered record is a hit. *)
Lemma numbered_first_cycle (n : nat) :
  scan ["example.com"] [] (numbered_feed n) = (numbered_seen 0 n, numbered_targets 0 n).
Proof.
  unfold numbered_feed. rewrite scan_fresh.
  - reflexivity.
  - apply numbered_all_match.
  - apply numbered_rids_NoDup.
  - reflexivity.
Qed.

Lemma NoDup_app_disjoint {A} (l1 l2 : list A) (x : A) :
  NoDup (l1 ++ l2) -> In x l1 -> In x l2 -> False.
Proof.
  induction l1 as [|y l1 IH]; intros ND H1 H2; [destruct H1|].
  inversion ND as [|? ? Hnot ND']; subst.
  destruct H1 as [->|H1]; [|now apply IH].
  apply Hnot. apply in_or_app. now right.
Qed.

(** After the first [k] identifiers have been evicted, the first [k]
    records are hits once more, and only they. *)
Lemma numbered_second_cycle (k n : nat) :
  (k <= n)%nat ->
  snd (scan ["example.com"] (skipn k (numbered_seen 0 n)) (numbered_feed n)) =
  numbered_targets 0 k.
Proof.
  intros H. rewrite (numbered_seen_skipn k n H).
  unfold numbered_feed. rewrite (numbered_split k n H), map_app.
  unfold scan. rewrite fold_left_app.
  pose proof (numbered_rids_NoDup 0 n) as ND.
  rewrite (numbered_split k n H), map_app in ND.
  fold (scan ["example.com"] (numbered_seen k (n - k)) (map Target (numbered_targets 0 k))).
  rewrite scan_fresh.
  - rewrite loop_all_seen; [reflexivity|].
    intros t Hin _. apply in_map_iff in Hin as [t' [[= ->] Hin]].
    rewrite dict_contains_app. apply orb_true_iff. left.
    apply dict_contains_In. unfold dict_keys, numbered_seen. rewrite map_map.
    cbn [fst]. now apply in_map.
  - apply numbered_all_match.
  - now apply NoDup_app_remove_r in ND.
  - intros t Hin. destruct (dict_contains (rid_of t) (numbered_seen k (n - k))) eqn:E;
      [|reflexivity].
    exfalso. apply dict_contains_In in E.
    unfold dict_keys, numbered_seen in E. rewrite map_map in E. cbn [fst] in E.
    apply (in_map rid_of) in Hin.
    exact (NoDup_app_disjoint _ _ _ ND Hin E).
Qed.

Lemma numbered_targets_length (a n : nat) : List.length (numbered_targets a n) = n.
Proof. unfold numbered_targets. now rewrite length_map, length_seq. Qed.

(** A first cycle over [n > 50000] numbered records, then a second one. *)
Lemma numbered_replay (n : nat) :
  (50000 < Z.of_nat n)%Z -> (Z.to_nat 10000 <= n)%nat ->
  let w := sample_world (numbered_feed n) Http2xx in
  let f1 := Json (JObject (mkState (Some (skipn (Z.to_nat 10000) (numbered_seen 0 n))))) in
  exit_code (program sample_config w NoFile) = 0%Z /\
  final_file (program sample_config w NoFile) = f1 /\
  cycle_hits sample_config f1 (numbered_feed n) = numbered_targets 0 (Z.to_nat 10000).
Proof.
  intros Hn Hk w f1.
  destruct (program_cycle_file sample_config w NoFile
              "https://feed.example/targets.json" (numbered_feed n))
    as [Hexit [Hfile _]]; try reflexivity; try discriminate.
  split; [exact Hexit|]. split.
  - rewrite Hfile. unfold cycle_hits, cycle_seen.
    change (MONITORED_HOSTS sample_config) with ["example.com"].
    rewrite initial_seen_failed_load by tauto.
    rewrite numbered_first_cycle. cbn [fst snd].
    destruct (numbered_targets 0 n) eqn:E.
    + apply (f_equal (@List.length target)) in E.
      rewrite numbered_targets_length in E. cbn in E. lia.
    + rewrite persisted_spec, numbered_seen_len.
      apply Z.ltb_lt in Hn. rewrite Hn. reflexivity.
  - unfold cycle_hits.
    change (MONITORED_HOSTS sample_config) with ["example.com"].
    change (initial_seen sample_config f1)
      with (skipn (Z.to_nat 10000) (numbered_seen 0 n)).
    now apply numbered_second_cycle.
Qed.



(** C2, as amended: in stateful mode a cycle with hits writes the seen set
    of its loop unchanged when it has at most 50000 identifiers, and without
    its first 10000 entries (the oldest inserted, in iteration order) when it
    has more; the seen set of the loop is the loaded one plus one identifier
    per hit, so the written set has at most
    max(50000, loaded + hits - 10000) identifiers: at most 50000 as long as
    the loop ends with at most 60000. *)
Theorem eviction_drops_oldest_batch
    (cfg : config) (w : world) (f : file_state) (url : string) (targets : list entry) :
  USE_STATE cfg = true -> URL cfg = Some url -> nonempty url = true ->
  MONITORED_HOSTS cfg <> [] -> feed w = FeedTargets targets -> f <> Json JOther ->
  cycle_hits cfg f targets <> [] ->
  let seen := cycle_seen cfg f targets in
  let evicting := (50000 <? dict_len seen)%Z in
  let saved := if evicting then skipn (Z.to_nat 10000) seen else seen in
  persisted (mkState (Some seen)) = mkState (Some saved) /\
  final_file (program cfg w f) = Json (JObject (mkState (Some saved))) /\
  seen = (if evicting then firstn (Z.to_nat 10000) seen else []) ++ saved /\
  dict_len seen =
    (dict_len (initial_seen cfg f) + Z.of_nat (List.length (cycle_hits cfg f targets)))%Z /\
  dict_len saved = (if evicting then dict_len seen - 10000 else dict_len seen)%Z /\
  (dict_len saved <= Z.max 50000 (dict_len seen - 10000))%Z.
Proof.
  intros HU EU Hurl HM Hfeed Hf Hhits seen evicting saved.
  destruct (program_cycle_file cfg w f url targets HU EU Hurl HM Hfeed Hf)
    as [_ [Hfile _]].
  assert (P : persisted (mkState (Some seen)) = mkState (Some saved))
    by apply persisted_spec.
  split; [exact P|]. split.
  { rewrite Hfile. destruct (cycle_hits cfg f targets); [now destruct Hhits|].
    fold seen. now rewrite P. }
  split.
  { subst saved. destruct evicting; [now rewrite firstn_skipn | reflexivity]. }
  split.
  { subst seen. unfold cycle_seen, cycle_hits. apply scan_size. }
  subst saved evicting.
  destruct (Z.ltb_spec 50000 (dict_len seen)) as [Hlt|Hge].
  - rewrite dict_len_skipn. split; lia.
  - split; lia.
Qed.

Lemma eviction_drops_oldest_batch_witness :
  let w := sample_world (numbered_feed 3) Http2xx in
  let seen := cycle_seen sample_config NoFile (numbered_feed 3) in
  final_file (program sample_config w NoFile) = Json (JObject (mkState (Some seen))) /\
  dict_len seen = 3%Z.
Proof.
  intros w seen.
  destruct (eviction_drops_oldest_batch sample_config w NoFile
              "https://feed.example/targets.json" (numbered_feed 3))
    as [_ [H2 [_ [H4 _]]]].
  - reflexivity.
  - reflexivity.
  - reflexivity.
  - discriminate.
  - reflexivity.
  - discriminate.
  - vm_compute. discriminate.
  - split; [exact H2 | exact H4].
Defined.

(** C2, as worded, fails: one cycle over 100000 new identifiers leaves
    90000 of them in the state file, far above 50000. *)
Lemma eviction_leaves_more_than_50000 :
  let w := sample_world (numbered_feed (Z.to_nat 100000)) Http2xx in
  exists saved,
    final_file (program sample_config w NoFile) = Json (JObject (mkState (Some saved))) /\
    dict_len saved = 90000%Z /\ (50000 < dict_len saved)%Z.
Proof.
  intros w.
  destruct (numbered_replay (Z.to_nat 100000)) as [_ [H2 _]]; [lia | lia |].
  eexists. split; [exact H2|].
  rewrite dict_len_skipn, numbered_seen_len. split; lia.
Qed.

(** ** The summarizer *)

Lemma firstn_snoc {A} (n : nat) (l : list A) (x : A) :
  firstn n (l ++ [x]) =
  if (List.length (firstn n l) <? n)%nat then firstn n l ++ [x] else firstn n l.
Proof.
  revert n; induction l as [|y l IH]; intros [|n]; cbn [firstn app List.length];
    try reflexivity.
  { now rewrite firstn_nil. }
  rewrite IH. change (S (List.length (firstn n l)) <? S n)%nat
    with (List.length (firstn n l) <? n)%nat.
  now destruct (List.length (firstn n l) <? n)%nat.
Qed.


Section Summarizer.
Variable cap : Z.

Lemma hits_on_snoc (h : string) (hits : list target) (t : target) :
  hits_on h (hits ++ [t]) =
  if (group_host t =? h)%string then hits_on h hits ++ [t] else hits_on h hits.
Proof.
  unfold hits_on. rewrite filter_app. cbn [filter].
  destruct (group_host t =? h)%string; [reflexivity | apply app_nil_r].
Qed.

Lemma expected_group_none (h : string) (hits : list target) :
  hits_on h hits = [] -> expected_group cap h hits = mkGroup 0 [].
Proof. unfold expected_group. intros ->. cbn. now rewrite firstn_nil. Qed.

(** The group stored for the host of [t] after one more hit on it. *)
Lemma expected_group_snoc (hits : list target) (t : target) :
  let g := expected_group cap (group_host t) hits in
  expected_group cap (group_host t) (hits ++ [t]) =
  if nonempty (example_of t) && (Z.of_nat (List.length (examples g)) <? cap)%Z
  then mkGroup (count g + 1) (examples g ++ [example_of t])
  else mkGroup (count g + 1) (examples g).
Proof.
  intros g. subst g. unfold expected_group. cbn [count examples].
  rewrite hits_on_snoc, String.eqb_refl, length_app, map_app, filter_app.
  cbn [List.length map filter].
  replace (Z.of_nat (List.length (hits_on (group_host t) hits) + 1))
    with (Z.of_nat (List.length (hits_on (group_host t) hits)) + 1)%Z by lia.
  set (F := filter nonempty (map example_of (hits_on (group_host t) hits))).
  destruct (nonempty (example_of t)); cbn [andb].
  - rewrite firstn_snoc.
    destruct (Nat.ltb_spec (List.length (firstn (Z.to_nat cap) F)) (Z.to_nat cap)) as [L|L];
      destruct (Z.ltb_spec (Z.of_nat (List.length (firstn (Z.to_nat cap) F))) cap) as [L'|L'];
      try reflexivity; exfalso; lia.
  - now rewrite app_nil_r.
Qed.

(** What [summarize_hits_by_host] stores under each key. *)
Lemma summarize_get (hits : list target) :
  forall h,
  dict_get h (fold_left (add_hit cap) hits []) =
  match hits_on h hits with
  | [] => None
  | _ :: _ => Some (expected_group cap h hits)
  end.
Proof.
  induction hits as [|t hits IH] using rev_ind; intros h; [reflexivity|].
  rewrite fold_left_app. cbn [fold_left].
  set (groups := fold_left (add_hit cap) hits []) in *.
  assert (G : match dict_get (group_host t) groups with
              | Some g => g
              | None => mkGroup 0 []
              end = expected_group cap (group_host t) hits).
  { rewrite IH. destruct (hits_on (group_host t) hits) eqn:EH; [|reflexivity].
    symmetry. now apply expected_group_none. }
  assert (S : forall k, dict_get k (add_hit cap groups t) =
            if (group_host t =? k)%string
            then Some (expected_group cap (group_host t) (hits ++ [t]))
            else dict_get k groups).
  { intros k. unfold add_hit. rewrite G, expected_group_snoc. cbv zeta.
    destruct (nonempty (example_of t) &&
              (Z.of_nat (List.length (examples (expected_group cap (group_host t) hits)))
               <? cap)%Z); now rewrite dict_get_set. }
  rewrite S.
  destruct (String.eqb_spec (group_host t) h) as [E|E].
  - subst h.
    assert (N : hits_on (group_host t) (hits ++ [t]) <> []).
    { rewrite hits_on_snoc, String.eqb_refl.
      now destruct (hits_on (group_host t) hits). }
    destruct (hits_on (group_host t) (hits ++ [t])); [now destruct N | reflexivity].
  - apply String.eqb_neq in E. unfold expected_group.
    rewrite hits_on_snoc, E. exact (IH h).
Qed.


Lemma hits_on_nonempty (h : string) (hits : list target) :
  hits_on h hits <> [] <-> In h (map group_host hits).
Proof.
  unfold hits_on. split.
  - intros H. destruct (filter _ hits) as [|t l] eqn:E; [now destruct H|].
    assert (Hin : In t (filter (fun t => (group_host t =? h)%string) hits))
      by (rewrite E; now left).
    apply filter_In in Hin as [Hin Heq]. apply String.eqb_eq in Heq. subst h.
    now apply in_map.
  - intros Hin E. apply in_map_iff in Hin as [t [<- Hin]].
    assert (Hf : In t (filter (fun u => (group_host u =? group_host t)%string) hits)).
    { apply filter_In. split; [exact Hin | apply String.eqb_refl]. }
    rewrite E in Hf. destruct Hf.
Qed.

Lemma summarize_keys (hits : list target) (h : string) :
  In h (dict_keys (fold_left (add_hit cap) hits [])) <-> In h (map group_host hits).
Proof.
  rewrite <- dict_contains_In, dict_get_contains, summarize_get, <- hits_on_nonempty.
  destruct (hits_on h hits); split; try discriminate; try congruence; auto.
Qed.



End Summarizer.

(** ** The compact report *)








(** * Further properties of the code *)

(** ** Case and white space *)

Lemma lower_char_idem (c : ascii) : lower_char (lower_char c) = lower_char c.
Proof. destruct c as [[] [] [] [] [] [] [] []]; reflexivity. Qed.

Lemma lower_upper_char (c : ascii) : lower_char (upper_char c) = lower_char c.
Proof. destruct c as [[] [] [] [] [] [] [] []]; reflexivity. Qed.

Lemma is_space_lower_char (c : ascii) : is_space (lower_char c) = is_space c.
Proof. destruct c as [[] [] [] [] [] [] [] []]; reflexivity. Qed.

Lemma lower_idem (s : string) : lower (lower s) = lower s.
Proof.
  induction s as [|c s IH]; [reflexivity|].
  cbn. rewrite lower_char_idem. f_equal. exact IH.
Qed.

Lemma lower_upper (s : string) : lower (upper s) = lower s.
Proof.
  induction s as [|c s IH]; [reflexivity|].
  cbn. rewrite lower_upper_char. f_equal. exact IH.
Qed.

Lemma lstrip_lower (s : string) : lstrip (lower s) = lower (lstrip s).
Proof.
  induction s as [|c s IH]; [reflexivity|].
  cbn. rewrite is_space_lower_char. destruct (is_space c); [exact IH | reflexivity].
Qed.

Lemma lower_empty (s : string) : lower s = EmptyString -> s = EmptyString.
Proof. destruct s; [reflexivity | discriminate]. Qed.

Lemma rstrip_lower (s : string) : rstrip (lower s) = lower (rstrip s).
Proof.
  induction s as [|c s IH]; [reflexivity|].
  cbn. fold (lower s). rewrite IH, is_space_lower_char.
  destruct (rstrip s); cbn; [destruct (is_space c)|]; reflexivity.
Qed.

Lemma strip_lower (s : string) : strip (lower s) = lower (strip s).
Proof. unfold strip. now rewrite lstrip_lower, rstrip_lower. Qed.

(** A string that starts with a non-blank keeps its first character under
    [rstrip]. *)
Lemma rstrip_head (c : ascii) (s : string) :
  is_space c = false -> exists r, rstrip (String c s) = String c r.
Proof.
  intros H. cbn. rewrite H. destruct (rstrip s) as [|d r]; eauto.
Qed.

Lemma lstrip_head (s : string) :
  lstrip s = EmptyString \/ exists c r, lstrip s = String c r /\ is_space c = false.
Proof.
  induction s as [|c s IH]; [now left|].
  cbn. destruct (is_space c) eqn:E; [exact IH|]. right. eauto.
Qed.

Lemma lstrip_fixed (c : ascii) (s : string) :
  is_space c = false -> lstrip (String c s) = String c s.
Proof. intros H. cbn. now rewrite H. Qed.

Lemma rstrip_idem (s : string) : rstrip (rstrip s) = rstrip s.
Proof.
  induction s as [|c s IH]; [reflexivity|].
  cbn. destruct (rstrip s) as [|d r] eqn:E.
  - destruct (is_space c) eqn:Ec; [reflexivity|]. cbn. now rewrite Ec.
  - cbn [rstrip]. cbn [rstrip] in IH. rewrite IH. reflexivity.
Qed.

Lemma strip_idem (s : string) : strip (strip s) = strip s.
Proof.
  unfold strip. destruct (lstrip_head s) as [E | [c [r [E Hc]]]]; rewrite E.
  - reflexivity.
  - destruct (rstrip_head c r Hc) as [r' Hr]. rewrite Hr.
    rewrite (lstrip_fixed c r' Hc), <- Hr. apply rstrip_idem.
Qed.

Lemma normalize_host_lower (h : string) : normalize_host (lower h) = normalize_host h.
Proof. unfold normalize_host. now rewrite lower_idem. Qed.

Lemma normalize_host_upper (h : string) : normalize_host (upper h) = normalize_host h.
Proof. unfold normalize_host. now rewrite lower_upper. Qed.

Lemma normalize_host_strip (h : string) : normalize_host (strip h) = normalize_host h.
Proof. unfold normalize_host. now rewrite <- strip_lower, strip_idem. Qed.

Lemma host_matches_loop_ext (M M' : list string) (x : string) :
  map normalize_host M = map normalize_host M' ->
  host_matches_loop M x = host_matches_loop M' x.
Proof.
  revert M'; induction M as [|m M IH]; intros [|m' M'] H; try discriminate H.
  - reflexivity.
  - cbn in H. injection H as Hm HM. cbn. unfold host_under.
    rewrite Hm, (IH M' HM). reflexivity.
Qed.

(** X1: [host_matches] looks at the host and at the monitored entries only
    through [normalize_host]: hosts with the same normal form, tested against
    lists whose entries have the same normal forms, get the same answer. *)
Theorem host_matches_normal_forms (M M' : list string) (h h' : string) :
  normalize_host h = normalize_host h' ->
  map normalize_host M = map normalize_host M' ->
  host_matches M h = host_matches M' h'.
Proof.
  intros Hh HM. unfold host_matches. rewrite Hh. now apply host_matches_loop_ext.
Qed.

Lemma host_matches_normal_forms_witness :
  host_matches ["example.com"] "WWW.Example.com" =
  host_matches ["  www.EXAMPLE.com "] " example.COM".
Proof.
  apply (host_matches_normal_forms ["example.com"] ["  www.EXAMPLE.com "]
           "WWW.Example.com" " example.COM"); reflexivity.
Defined.

(** X2: the answer of [host_matches] does not depend on the letter case of
    the host nor on white space around it, and neither on the letter case of
    the monitored entries nor on white space around them. *)
Theorem host_matches_ignores_case_and_blanks (M : list string) (h : string) :
  host_matches M (upper h) = host_matches M h /\
  host_matches M (lower h) = host_matches M h /\
  host_matches M (strip h) = host_matches M h /\
  host_matches (map upper M) h = host_matches M h /\
  host_matches (map lower M) h = host_matches M h /\
  host_matches (map strip M) h = host_matches M h.
Proof.
  unfold host_matches.
  rewrite normalize_host_upper, normalize_host_lower, normalize_host_strip.
  repeat split; try reflexivity; apply host_matches_loop_ext; rewrite map_map;
    apply map_ext; intros m.
  - apply normalize_host_upper.
  - apply normalize_host_lower.
  - apply normalize_host_strip.
Qed.

(** ** More on the matcher *)

Lemma host_matches_loop_app (M1 M2 : list string) (x : string) :
  host_matches_loop (M1 ++ M2) x = host_matches_loop M1 x || host_matches_loop M2 x.
Proof.
  induction M1 as [|m M1 IH]; [reflexivity|].
  cbn. destruct (host_under x m); [reflexivity | exact IH].
Qed.

(** X3: matching against a concatenated list is matching against either
    part; hence adding monitored entries never loses a match, and the order
    of the entries does not matter. *)
Theorem host_matches_app (M1 M2 : list string) (h : string) :
  host_matches (M1 ++ M2) h = host_matches M1 h || host_matches M2 h /\
  host_matches (M1 ++ M2) h = host_matches (M2 ++ M1) h.
Proof.
  unfold host_matches. rewrite !host_matches_loop_app. split; [reflexivity|].
  apply orb_comm.
Qed.

(** X4: every sub-domain of a matching host matches: if [h] matches and the
    normal form of [h'] is some prefix, a dot, and the normal form of [h],
    then [h'] matches too. *)
Theorem host_matches_subdomain (M : list string) (h h' p : string) :
  host_matches M h = true ->
  normalize_host h' = (p ++ "." ++ normalize_host h)%string ->
  host_matches M h' = true.
Proof.
  unfold host_matches. rewrite !host_matches_loop_spec.
  intros [m [Hin Hm]] E. exists m. split; [exact Hin|].
  apply host_under_spec. apply host_under_spec in Hm. right.
  destruct Hm as [Hm | [q Hq]].
  - exists p. now rewrite E, Hm.
  - exists (p ++ "." ++ q)%string. rewrite E, Hq.
    now rewrite !append_assoc.
Qed.

Lemma host_matches_subdomain_witness :
  host_matches ["example.com"] "Deep.API.example.com" = true.
Proof.
  apply (host_matches_subdomain ["example.com"] "api.example.com"
           "Deep.API.example.com" "deep"); reflexivity.
Defined.

(** ** More on the loop of [main] *)

Section LoopFacts.
Variable monitored : list string.

(** The loop over a concatenated feed is the loop over the second part
    started from what the first part leaves. *)
Lemma scan_app_raw (seen : dict bool) (es1 es2 : list entry) :
  scan monitored seen (es1 ++ es2) =
  (fst (scan monitored (fst (scan monitored seen es1)) es2),
   snd (scan monitored seen es1) ++
   snd (scan monitored (fst (scan monitored seen es1)) es2)).
Proof.
  unfold scan. rewrite fold_left_app.
  destruct (fold_left (visit monitored) es1 (seen, [])) as [s1 h1]. cbn [fst snd].
  destruct (loop_hits_prefix monitored es2 s1 h1) as [H1 H2].
  rewrite <- H1, <- H2. now destruct (fold_left (visit monitored) es2 (s1, h1)).
Qed.

(** The seen set is only appended to: one entry per hit, in the order of
    the hits. *)
Lemma scan_appends (es : list entry) :
  forall seen,
  fst (scan monitored seen es) = seen ++ seen_entries (snd (scan monitored seen es)).
Proof.
  induction es as [|e es IH]; intros seen.
  - cbn. now rewrite app_nil_r.
  - change (e :: es) with ([e] ++ es). rewrite scan_app_raw. cbn [fst snd].
    rewrite IH. unfold seen_entries. rewrite map_app, app_assoc. f_equal.
    unfold scan. cbn [fold_left]. rewrite visit_spec. cbn [fst snd].
    destruct (is_hit monitored seen e) eqn:E; [|now rewrite app_nil_r].
    destruct e as [|t]; [discriminate E|]. cbn [fst snd app map].
    cbn [is_hit] in E. apply andb_true_iff in E as [_ E]. apply negb_true_iff in E.
    now apply dict_set_fresh.
Qed.

(** What the hits of a loop are: matching records of the feed, unseen at
    the start, with pairwise distinct identifiers. *)
Lemma scan_hits_invariant (es : list entry) :
  forall seen,
  Forall (fun t => In (Target t) es /\ host_ok monitored t = true /\
                   dict_contains (rid_of t) seen = false)
         (snd (scan monitored seen es)) /\
  NoDup (map rid_of (snd (scan monitored seen es))).
Proof.
  induction es as [|e es IH]; intros seen.
  - cbn. split; constructor.
  - change (e :: es) with ([e] ++ es). rewrite scan_app_raw. cbn [snd].
    set (s1 := fst (scan monitored seen [e])).
    destruct (IH s1) as [F N].
    assert (Hs1 : forall k, dict_contains k seen = true -> dict_contains k s1 = true).
    { intros k Hk. subst s1. unfold scan. cbn [fold_left].
      now apply visit_keeps_seen. }
    assert (F' : Forall (fun t => In (Target t) ([e] ++ es) /\
                                  host_ok monitored t = true /\
                                  dict_contains (rid_of t) seen = false)
                        (snd (scan monitored s1 es))).
    { eapply Forall_impl; [|exact F]. intros t [H1 [H2 H3]].
      split; [now right|]. split; [exact H2|].
      destruct (dict_contains (rid_of t) seen) eqn:Ek; [|reflexivity].
      apply Hs1 in Ek. congruence. }
    unfold scan at 1 3. cbn [fold_left]. rewrite visit_spec. cbn [fst snd].
    destruct (is_hit monitored seen e) eqn:E; [|split; assumption].
    destruct e as [|t]; [discriminate E|]. cbn [snd app map].
    cbn [is_hit] in E. apply andb_true_iff in E as [Hok E]. apply negb_true_iff in E.
    split.
    + constructor; [|exact F']. split; [now left|]. now split.
    + constructor; [|exact N]. intros Hin.
      apply in_map_iff in Hin as [u [Hu Hin]].
      rewrite Forall_forall in F. destruct (F u Hin) as [_ [_ Hfresh]].
      subst s1. unfold scan in Hfresh. cbn [fold_left] in Hfresh.
      rewrite Hu in Hfresh.
      rewrite (visit_records_rid monitored (seen, []) t Hok) in Hfresh.
      discriminate Hfresh.
Qed.

(** Entries that are not records, and records whose host does not match,
    leave no trace in the loop. *)
Lemma scan_filter_relevant (es : list entry) :
  forall seen,
  scan monitored seen (filter (relevant monitored) es) = scan monitored seen es.
Proof.
  unfold scan. generalize (@nil target).
  induction es as [|e es IH]; intros hits seen; [reflexivity|].
  cbn [filter]. destruct (relevant monitored e) eqn:E; cbn [fold_left].
  - destruct (visit monitored (seen, hits) e). apply IH.
  - rewrite (visit_no_hit monitored (seen, hits) e); [apply IH|].
    destruct e as [|t]; [reflexivity|]. cbn in E |- *. now rewrite E.
Qed.
End LoopFacts.

(** X5: the loop of [main] only appends to the seen set: after it, the seen
    set is the one before, entries and order unchanged, followed by one
    entry [(identifier, True)] per hit in the order of the hits; so a key is
    seen afterwards exactly when it was seen before or is the identifier of
    a hit, and the size grows by the number of hits. *)
Theorem scan_appends_one_entry_per_hit
    (M : list string) (seen : dict bool) (targets : list entry) :
  let hits := snd (scan M seen targets) in
  fst (scan M seen targets) = seen ++ seen_entries hits /\
  (forall k, dict_contains k (fst (scan M seen targets)) =
             dict_contains k seen || existsb (fun t => (rid_of t =? k)%string) hits) /\
  dict_len (fst (scan M seen targets)) = (dict_len seen + Z.of_nat (List.length hits))%Z.
Proof.
  intros hits. split; [apply scan_appends|]. split; [|apply scan_size].
  intros k. rewrite scan_appends, dict_contains_app. f_equal. fold hits.
  induction hits as [|t l IH]; [reflexivity|].
  cbn [seen_entries map dict_contains existsb]. unfold seen_entries in IH.
  rewrite IH. now destruct (rid_of t =? k)%string.
Qed.

(** X6: a seen set without repeated keys, as every Python dictionary is,
    stays so through the loop of [main] and through the eviction of
    [save_state]. *)
Theorem seen_set_keeps_distinct_keys
    (M : list string) (seen : dict bool) (targets : list entry) :
  dict_wf seen ->
  dict_wf (fst (scan M seen targets)) /\
  dict_wf (evict (fst (scan M seen targets))).
Proof.
  intros Hwf.
  assert (W : dict_wf (fst (scan M seen targets))).
  { rewrite scan_appends. unfold dict_wf, dict_keys.
    rewrite map_app. destruct (scan_hits_invariant M targets seen) as [F N].
    apply NoDup_app; [exact Hwf | |].
    - unfold seen_entries. rewrite map_map. exact N.
    - intros k Hk Hin. unfold seen_entries in Hin. rewrite map_map in Hin.
      apply in_map_iff in Hin as [t [<- Hin]].
      rewrite Forall_forall in F. destruct (F t Hin) as [_ [_ Hfresh]].
      apply (dict_contains_In (rid_of t) seen) in Hk. congruence. }
  split; [exact W|].
  rewrite evict_is_skipn. unfold dict_wf, dict_keys in *.
  rewrite <- (firstn_skipn (Z.to_nat 10000) (fst (scan M seen targets))), map_app in W.
  now apply NoDup_app_remove_l in W.
Qed.

Lemma seen_set_keeps_distinct_keys_witness :
  dict_wf (fst (scan ["example.com"] (numbered_seen 0 2) (numbered_feed 4))) /\
  dict_wf (evict (fst (scan ["example.com"] (numbered_seen 0 2) (numbered_feed 4)))).
Proof.
  apply (seen_set_keeps_distinct_keys ["example.com"] (numbered_seen 0 2) (numbered_feed 4)).
  unfold dict_wf, dict_keys, numbered_seen. rewrite map_map. cbn [fst].
  apply numbered_rids_NoDup.
Defined.

(** X7: every hit of the loop is a record of the feed whose host is a
    non-empty string that matches and whose identifier was not in the seen
    set at the start; no two hits share an identifier.  So an identifier
    already seen is never reported, and none is reported twice. *)
Theorem hits_are_new_and_distinct
    (M : list string) (seen : dict bool) (targets : list entry) :
  Forall (fun t => In (Target t) targets /\
                   (exists h, host t = Str h /\ nonempty h = true /\
                              host_matches M h = true) /\
                   dict_contains (rid_of t) seen = false)
         (snd (scan M seen targets)) /\
  NoDup (map rid_of (snd (scan M seen targets))).
Proof.
  destruct (scan_hits_invariant M targets seen) as [F N].
  split; [|exact N].
  eapply Forall_impl; [|exact F]. intros t [H1 [H2 H3]].
  split; [exact H1|]. split; [|exact H3].
  unfold host_ok in H2. apply andb_true_iff in H2 as [Ht Hm].
  destruct (host t) as [| |h]; try discriminate Ht.
  exists h. cbn in Ht, Hm. auto.
Qed.

(** X8: entries of the feed that are not JSON objects, and records whose
    host is absent, null, empty or not under a monitored domain, change
    neither the hits nor the seen set: the loop gives the same result on the
    feed with all of them removed. *)
Theorem scan_ignores_irrelevant_entries
    (M : list string) (seen : dict bool) (targets : list entry) :
  scan M seen (filter (relevant M) targets) = scan M seen targets /\
  relevant M NotADict = false /\
  relevant M (Target (mkTarget Missing Missing Missing Missing Missing (Str "id"))) = false /\
  relevant M (Target (mkTarget Null Missing Missing Missing Missing (Str "id"))) = false /\
  relevant M (Target (mkTarget (Str EmptyString) Missing Missing Missing Missing (Str "id")))
    = false.
Proof.
  split; [apply scan_filter_relevant|]. repeat split.
Qed.

(** X9: an explicit [request_id] is the identifier whatever the other
    fields are: once a matching record has been met, a later record with
    the same identifier is not a hit, even on another host or path. *)
Theorem same_identifier_is_reported_once
    (M : list string) (seen : dict bool) (pre mid post : list entry) (t1 t2 : target) :
  rid_of t1 = rid_of t2 ->
  host_ok M t1 = true ->
  scan M seen (pre ++ Target t1 :: mid ++ Target t2 :: post) =
  scan M seen (pre ++ Target t1 :: mid ++ post).
Proof.
  intros Hrid Hok. unfold scan.
  rewrite !fold_left_app. cbn [fold_left]. rewrite !fold_left_app.
  cbn [fold_left]. f_equal. apply visit_no_hit. cbn [is_hit].
  destruct (host_ok M t2); [|reflexivity]. cbn [andb].
  rewrite <- Hrid, loop_keeps_seen; [reflexivity|].
  now apply visit_records_rid.
Qed.

Lemma same_identifier_is_reported_once_witness :
  let a := sample_target "api.example.com" "/login" "post" "443" (Str "req-1") in
  let b := sample_target "www.example.com" "/" "get" "80" (Str "req-1") in
  snd (scan ["example.com"] [] [Target a; Target b]) = [a].
Proof.
  intros a b.
  pose proof (same_identifier_is_reported_once ["example.com"] [] [] [] [] a b
                eq_refl eq_refl) as H.
  cbn [app] in H. rewrite H. reflexivity.
Defined.

(** ** More on the runs of the script *)

Lemma filter_write_slack (cfg : config) (w : world) (url : string) (hits : list target) :
  filter is_write (events_of (notify_slack cfg w url hits)) = [].
Proof.
  unfold events_of, notify_slack.
  destruct (negb (nonempty (SLACK_WEBHOOK cfg))); [reflexivity|].
  destruct (match hits with [] => true | _ => false end && SLACK_SUPPRESS_EMPTY cfg);
    [reflexivity|].
  run_monad. destruct (webhook w); reflexivity.
Qed.

Lemma filter_write_email (cfg : config) (w : world) (url : string) (hits : list target) :
  filter is_write (events_of (notify_email cfg w url hits)) = [].
Proof.
  unfold events_of, notify_email.
  destruct (negb (nonempty (SMTP_HOST cfg) && nonempty (EMAIL_FROM cfg) &&
                  nonempty (EMAIL_TO cfg))); [reflexivity|].
  run_monad. destruct (smtp w); reflexivity.
Qed.

Lemma filter_write_fetch (cfg : config) (w : world) (url : string) :
  filter is_write (events_of (fetch_targets cfg w url)) = [].
Proof.
  unfold events_of, fetch_targets.
  destruct (feed w); [|reflexivity]. run_monad.
  destruct (nonempty (SLACK_WEBHOOK cfg)); [|reflexivity].
  run_monad. destruct (webhook w); reflexivity.
Qed.

Lemma initial_seen_stateless (cfg : config) (f : file_state) :
  USE_STATE cfg = false -> initial_seen cfg f = [].
Proof. intros H. unfold initial_seen, bind, load_state. now rewrite H. Qed.


(** The script on each of its paths, for either mode. *)
Lemma program_paths (cfg : config) (w : world) (f : file_state) :
  let r := program cfg w f in
  (* no URL *)
  ((URL cfg = None \/ URL cfg = Some EmptyString) /\
   r = (2%Z, mkMachine [EvErr "ERROR: Set TARGETS_URL in environment file"] f)) \/
  exists url, URL cfg = Some url /\ nonempty url = true /\
  ((* no monitored host *)
   (MONITORED_HOSTS cfg = [] /\
    r = (2%Z, mkMachine
           [EvErr "ERROR: Set MONITORED_HOSTS (e.g. MONITORED_HOSTS='op.fi,kela.fi')"] f)) \/
   MONITORED_HOSTS cfg <> [] /\
   ((* the state document is not an object *)
    (USE_STATE cfg = true /\ f = Json JOther /\
     r = (1%Z, mkMachine [EvErr "ERROR: object has no attribute 'setdefault'"] f)) \/
    (USE_STATE cfg = true -> f <> Json JOther) /\
    ((* the fetch fails *)
     (exists e, feed w = FeedError e /\
        r = (1%Z, mkMachine (events_of (fetch_targets cfg w url) ++
                             [EvErr ("ERROR: " ++ e)%string]) f)) \/
     (* the cycle *)
     (exists targets, feed w = FeedTargets targets /\
        r = match cycle_hits cfg f targets with
            | [] =>
                (0%Z, mkMachine
                   (EvGet url :: EvOut "No new matches." ::
                    (if negb (SLACK_SUPPRESS_EMPTY cfg)
                     then events_of (notify_slack cfg w url []) else [])) f)
            | hits =>
                let state := mkState (Some (cycle_seen cfg f targets)) in
                (0%Z, mkMachine
                   (EvGet url :: events_of (notify_slack cfg w url hits) ++
                    events_of (notify_email cfg w url hits) ++
                    EvOut ("Found " ++ str_int (Z.of_nat (List.length hits)) ++
                           " new matches.")%string ::
                    (if USE_STATE cfg then [EvWrite (persisted state)] else []))
                   (if USE_STATE cfg then Json (JObject (persisted state)) else f))
            end)))).
Proof.
  intros r. subst r.
  destruct (URL cfg) as [[|c u]|] eqn:EU;
    try (left; split; [auto|]; apply program_no_url; auto).
  right. exists (String c u). split; [reflexivity|]. split; [reflexivity|].
  rewrite (program_runs_main cfg w (String c u) f EU eq_refl).
  destruct (MONITORED_HOSTS cfg) as [|m0 ms] eqn:EM.
  { left. split; [reflexivity|]. rewrite main_no_hosts by exact EM. reflexivity. }
  right. rewrite <- EM.
  assert (HM : MONITORED_HOSTS cfg <> []) by (rewrite EM; discriminate).
  split; [exact HM|].
  assert (Hcase : (USE_STATE cfg = true /\ f = Json JOther) \/
                  (USE_STATE cfg = true -> f <> Json JOther)).
  { destruct (USE_STATE cfg); [|right; discriminate].
    destruct f as [| | |[st|]]; try (right; discriminate). now left. }
  destruct Hcase as [[HU HF] | Hfile].
  { left. split; [exact HU|]. split; [exact HF|].
    rewrite main_bad_state by (cbn [file]; auto). reflexivity. }
  right. split; [exact Hfile|].
  destruct (feed w) as [e|targets] eqn:EF.
  - left. exists e. split; [reflexivity|].
    rewrite (main_fetch_error cfg w _ e _ HM EF) by (cbn [file]; auto).
    reflexivity.
  - right. exists targets. split; [reflexivity|].
    rewrite (main_cycle cfg w _ targets _ HM EF) by (cbn [file]; auto).
    cbn [file trace app]. destruct (cycle_hits cfg f targets); reflexivity.
Qed.

(** Splits a goal about [program cfg w f] along [program_paths] and closes
    the paths that the hypotheses exclude. *)
Ltac split_paths cfg w f :=
  destruct (program_paths cfg w f)
    as [[[pURL | pURL] pRun]
       | [purl [pEU [pHurl
           [[pHM pRun]
           | [pHM [[pHS [pHF pRun]]
                  | [pHfile [[pe [pEF pRun]] | [ptargets [pEF pRun]]]]]]]]]]];
  cbv zeta in pRun;
  try congruence;
  try (exfalso; match goal with
                | H : nonempty ?u = true, H1 : URL cfg = Some ?u,
                  H2 : URL cfg = Some EmptyString |- _ =>
                    rewrite H1 in H2; injection H2 as H2; subst u; discriminate H
                end);
  try (exfalso;
       match goal with
       | H : USE_STATE cfg = true -> _ <> _ |- _ =>
           apply H; [assumption | first [assumption | reflexivity]]
       end).

Lemma program_stateless (cfg : config) (w : world) (f : file_state) :
  USE_STATE cfg = false ->
  program cfg w f =
  (exit_code (program cfg w NoFile), mkMachine (run_trace (program cfg w NoFile)) f).
Proof.
  intros HU. unfold exit_code, run_trace.
  assert (Hok : forall g : file_state, USE_STATE cfg = true -> g <> Json JOther)
    by (intros g H; congruence).
  destruct (URL cfg) as [[|c u]|] eqn:EU;
    try (rewrite !program_no_url by auto; reflexivity).
  rewrite !(program_runs_main cfg w (String c u) _ EU eq_refl).
  destruct (MONITORED_HOSTS cfg) as [|m0 ms] eqn:EM.
  { rewrite !main_no_hosts by exact EM. reflexivity. }
  assert (HM : MONITORED_HOSTS cfg <> []) by (rewrite EM; discriminate).
  destruct (feed w) as [e|targets] eqn:EF.
  - rewrite !(main_fetch_error cfg w _ e _ HM EF) by (cbn [file]; auto).
    reflexivity.
  - rewrite !(main_cycle cfg w _ targets _ HM EF) by (cbn [file]; auto).
    cbn [file trace]. unfold cycle_hits, cycle_seen.
    rewrite !initial_seen_stateless by exact HU. rewrite HU.
    destruct (snd (scan (MONITORED_HOSTS cfg) [] targets)); reflexivity.
Qed.

(** X10: in stateless mode ([USE_STATE] off) the state file plays no part:
    the script never writes it and leaves it as it was, its exit status and
    its trace are the same whatever the file holds, and every cycle starts
    from the empty seen set, so a replay of a feed reports the same hits. *)
Theorem stateless_mode_ignores_state_file
    (cfg : config) (w : world) (f g : file_state) :
  USE_STATE cfg = false ->
  final_file (program cfg w f) = f /\
  filter is_write (run_trace (program cfg w f)) = [] /\
  exit_code (program cfg w f) = exit_code (program cfg w g) /\
  run_trace (program cfg w f) = run_trace (program cfg w g) /\
  (forall targets,
     cycle_hits cfg f targets = snd (scan (MONITORED_HOSTS cfg) [] targets) /\
     cycle_hits cfg (final_file (program cfg w f)) targets = cycle_hits cfg f targets).
Proof.
  intros HU.
  rewrite (program_stateless cfg w f HU), (program_stateless cfg w g HU).
  unfold final_file, exit_code, run_trace. cbn [fst snd file trace].
  split; [reflexivity|]. split.
  - split_paths cfg w NoFile; rewrite pRun; cbn [snd trace filter is_write];
      rewrite ?filter_app, ?filter_write_fetch; try reflexivity.
    destruct (cycle_hits cfg NoFile ptargets);
      cbn [snd trace filter is_write];
      rewrite ?filter_app, ?filter_write_slack, ?filter_write_email, ?HU;
      cbn [filter is_write app];
      destruct (negb (SLACK_SUPPRESS_EMPTY cfg));
      rewrite ?filter_write_slack; reflexivity.
  - split; [reflexivity|]. split; [reflexivity|].
    intros targets. unfold cycle_hits.
    now rewrite !initial_seen_stateless by exact HU.
Qed.

Lemma stateless_mode_ignores_state_file_witness :
  let cfg := mkConfig (Some "https://feed.example/targets.json") ["example.com"] false
               "https://hooks.example/T000" true 2 10 true "Target watcher"
               "smtp.example.com" 587 "watcher" "secret"
               "watcher@example.com" "soc@example.com" in
  let w := sample_world (numbered_feed 2) Http2xx in
  let f := Json (JObject (mkState (Some (numbered_seen 0 2)))) in
  final_file (program cfg w f) = f /\
  exit_code (program cfg w f) = exit_code (program cfg w Malformed) /\
  cycle_hits cfg f (numbered_feed 2) = numbered_targets 0 2.
Proof.
  intros cfg w f.
  destruct (stateless_mode_ignores_state_file cfg w f Malformed eq_refl)
    as [H1 [_ [H3 [_ H5]]]].
  split; [exact H1|]. split; [exact H3|].
  destruct (H5 (numbered_feed 2)) as [H _]. rewrite H. reflexivity.
Defined.

(** X11: when the GET of the feed fails, the script logs the failure, tries
    the webhook once if one is configured (logging a transport error of that
    attempt, but not a non-success status), sends no e-mail, does not touch
    the state file, and exits with status 1 after logging the error again. *)
Theorem fetch_failure_exits_1
    (cfg : config) (w : world) (f : file_state) (url e : string) :
  URL cfg = Some url -> nonempty url = true -> MONITORED_HOSTS cfg <> [] ->
  (USE_STATE cfg = true -> f <> Json JOther) ->
  feed w = FeedError e ->
  exit_code (program cfg w f) = 1%Z /\
  final_file (program cfg w f) = f /\
  exists text,
    run_trace (program cfg w f) =
    EvGet url ::
    EvErr ("ERROR: Failed to fetch targets from " ++ url ++ ": " ++ e)%string ::
    (if nonempty (SLACK_WEBHOOK cfg)
     then EvPost (SLACK_WEBHOOK cfg) text ::
          match webhook w with
          | TransportError e' =>
              [EvErr ("ERROR: Failed to send error notification to Slack: " ++ e')%string]
          | _ => []
          end
     else []) ++
    [EvErr ("ERROR: " ++ e)%string].
Proof.
  intros EU0 Hurl0 HM Hfile0 EF0.
  split_paths cfg w f.
  assert (purl = url) by congruence. assert (pe = e) by congruence. subst purl pe.
  unfold exit_code, final_file, run_trace. rewrite pRun. cbn [fst snd file trace].
  split; [reflexivity|]. split; [reflexivity|].
  unfold events_of, fetch_targets. rewrite EF0. run_monad.
  destruct (nonempty (SLACK_WEBHOOK cfg)).
  - run_monad. eexists. destruct (webhook w); reflexivity.
  - exists EmptyString. reflexivity.
Qed.

Lemma fetch_failure_exits_1_witness :
  let w := mkWorld (FeedError "503 Service Unavailable")
             (HttpStatusError "404 Not Found") None "probe-1" in
  exit_code (program sample_config w NoFile) = 1%Z /\
  final_file (program sample_config w NoFile) = NoFile /\
  List.length (run_trace (program sample_config w NoFile)) = 4%nat.
Proof.
  intros w.
  destruct (fetch_failure_exits_1 sample_config w NoFile
              "https://feed.example/targets.json" "503 Service Unavailable")
    as [H1 [H2 [text H3]]].
  - reflexivity.
  - reflexivity.
  - discriminate.
  - discriminate.
  - reflexivity.
  - split; [exact H1|]. split; [exact H2|]. rewrite H3. reflexivity.
Defined.

(** X12: in stateful mode a state file that parses to something other
    than a JSON object stops the run before the feed is fetched: exit
    status 1, one error line, no GET, POST or SMTP session, file untouched.
    (Unlike a file that fails to parse, which counts as empty.) *)
Theorem non_object_state_exits_1
    (cfg : config) (w : world) (url : string) :
  URL cfg = Some url -> nonempty url = true -> MONITORED_HOSTS cfg <> [] ->
  USE_STATE cfg = true ->
  exit_code (program cfg w (Json JOther)) = 1%Z /\
  final_file (program cfg w (Json JOther)) = Json JOther /\
  filter is_network (run_trace (program cfg w (Json JOther))) = [] /\
  List.length (run_trace (program cfg w (Json JOther))) = 1%nat.
Proof.
  intros EU0 Hurl0 HM HU.
  split_paths cfg w (Json JOther).
  unfold exit_code, final_file, run_trace. rewrite pRun. repeat split.
Qed.

Lemma non_object_state_exits_1_witness :
  let w := sample_world (numbered_feed 2) Http2xx in
  exit_code (program sample_config w (Json JOther)) = 1%Z /\
  final_file (program sample_config w (Json JOther)) = Json JOther /\
  filter is_network (run_trace (program sample_config w (Json JOther))) = [] /\
  List.length (run_trace (program sample_config w (Json JOther))) = 1%nat.
Proof.
  intros w.
  apply (non_object_state_exits_1 sample_config w "https://feed.example/targets.json").
  - reflexivity.
  - reflexivity.
  - discriminate.
  - reflexivity.
Defined.

(** X13: a cycle without hits prints that there are no new matches and exits
    with status 0; it writes no state and sends no e-mail; it posts to the
    webhook only when one is configured and [SLACK_SUPPRESS_EMPTY] is off,
    and then posts the report of an empty hit list once. *)
Theorem cycle_without_hits
    (cfg : config) (w : world) (f : file_state) (url : string) (targets : list entry) :
  URL cfg = Some url -> nonempty url = true -> MONITORED_HOSTS cfg <> [] ->
  (USE_STATE cfg = true -> f <> Json JOther) ->
  feed w = FeedTargets targets ->
  cycle_hits cfg f targets = [] ->
  exit_code (program cfg w f) = 0%Z /\
  final_file (program cfg w f) = f /\
  filter is_write (run_trace (program cfg w f)) = [] /\
  filter is_smtp (run_trace (program cfg w f)) = [] /\
  run_trace (program cfg w f) =
    EvGet url :: EvOut "No new matches." ::
    (if negb (SLACK_SUPPRESS_EMPTY cfg) && nonempty (SLACK_WEBHOOK cfg)
     then EvPost (SLACK_WEBHOOK cfg)
            (if SLACK_SUMMARY_ONLY cfg then format_compact_slack cfg [] url
             else verbose_text cfg w url []) ::
          match webhook w with
          | Http2xx => []
          | HttpStatusError e | TransportError e =>
              [EvErr ("Slack notify failed: " ++ e)%string]
          end
     else []).
Proof.
  intros EU0 Hurl0 HM Hfile0 EF0 Hnone.
  split_paths cfg w f.
  assert (purl = url) by congruence. assert (ptargets = targets) by congruence.
  subst purl ptargets. rewrite Hnone in pRun.
  unfold exit_code, final_file, run_trace. rewrite pRun. cbn [fst snd file trace].
  assert (E : (if negb (SLACK_SUPPRESS_EMPTY cfg)
               then events_of (notify_slack cfg w url []) else []) =
              (if negb (SLACK_SUPPRESS_EMPTY cfg) && nonempty (SLACK_WEBHOOK cfg)
               then EvPost (SLACK_WEBHOOK cfg)
                      (if SLACK_SUMMARY_ONLY cfg then format_compact_slack cfg [] url
                       else verbose_text cfg w url []) ::
                    match webhook w with
                    | Http2xx => []
                    | HttpStatusError e | TransportError e =>
                        [EvErr ("Slack notify failed: " ++ e)%string]
                    end
               else [])).
  { unfold events_of, notify_slack.
    destruct (SLACK_SUPPRESS_EMPTY cfg); [reflexivity|].
    destruct (nonempty (SLACK_WEBHOOK cfg)); [|reflexivity].
    cbn [negb andb]. run_monad. destruct (webhook w); reflexivity. }
  rewrite E. split; [reflexivity|]. split; [reflexivity|].
  destruct (negb (SLACK_SUPPRESS_EMPTY cfg) && nonempty (SLACK_WEBHOOK cfg));
    [destruct (webhook w)|]; repeat split.
Qed.

Lemma cycle_without_hits_witness :
  let w := sample_world [NotADict; Target (sample_target "other.org" "/" "get" "80" Missing)]
             Http2xx in
  exit_code (program sample_config w NoFile) = 0%Z /\
  final_file (program sample_config w NoFile) = NoFile /\
  run_trace (program sample_config w NoFile) =
    [EvGet "https://feed.example/targets.json"; EvOut "No new matches."].
Proof.
  intros w.
  destruct (cycle_without_hits sample_config w NoFile
              "https://feed.example/targets.json"
              [NotADict; Target (sample_target "other.org" "/" "get" "80" Missing)])
    as [H1 [H2 [_ [_ H5]]]].
  - reflexivity.
  - reflexivity.
  - discriminate.
  - discriminate.
  - reflexivity.
  - reflexivity.
  - split; [exact H1|]. split; [exact H2 | exact H5].
Defined.







(** ** More on the state store *)







(** ** More on the summarizer *)

Lemma first_appearances_snoc (l : list string) (x : string) :
  first_appearances (l ++ [x]) =
  if in_dec string_dec x l then first_appearances l else first_appearances l ++ [x].
Proof.
  unfold first_appearances. rewrite rev_app_distr. cbn [rev app nodup].
  destruct (in_dec string_dec x (rev l)) as [H|H];
    destruct (in_dec string_dec x l) as [H'|H']; try reflexivity.
  - exfalso. apply H'. now apply in_rev.
  - exfalso. apply H. now apply in_rev in H'.
Qed.

(** X18: [summarize_hits_by_host] keeps its groups in the order in which
    their hosts first appear in the hit list. *)
Theorem groups_in_order_of_first_appearance (cfg : config) (hits : list target) :
  dict_keys (summarize_hits_by_host cfg hits) =
  first_appearances (map group_host hits).
Proof.
  unfold summarize_hits_by_host.
  induction hits as [|t hits IH] using rev_ind; [reflexivity|].
  rewrite fold_left_app, map_app. cbn [fold_left map].
  rewrite first_appearances_snoc, <- IH.
  set (groups := fold_left (add_hit (SLACK_EXAMPLES_PER_HOST cfg)) hits []) in *.
  assert (K : dict_keys (add_hit (SLACK_EXAMPLES_PER_HOST cfg) groups t) =
              if dict_contains (group_host t) groups
              then dict_keys groups else dict_keys groups ++ [group_host t]).
  { unfold add_hit.
    match goal with |- context [if ?b then _ else _] => destruct b end;
      apply dict_keys_set. }
  rewrite K.
  destruct (in_dec string_dec (group_host t) (map group_host hits)) as [H|H].
  - apply (summarize_keys (SLACK_EXAMPLES_PER_HOST cfg)) in H.
    apply dict_contains_In in H. fold groups in H. now rewrite H.
  - destruct (dict_contains (group_host t) groups) eqn:E; [|reflexivity].
    exfalso. apply H. apply (summarize_keys (SLACK_EXAMPLES_PER_HOST cfg)).
    now apply dict_contains_In.
Qed.

Lemma insert_desc_with_count (c : Z) (x : string * group) (l : list (string * group)) :
  with_count c (insert_desc x l) = with_count c (x :: l).
Proof.
  unfold with_count.
  induction l as [|y l IH]; [reflexivity|].
  cbn [insert_desc].
  destruct (Z.ltb_spec (count (snd x)) (count (snd y))) as [Lt|Ge]; [|reflexivity].
  cbn [filter] in IH |- *. rewrite IH.
  destruct (Z.eqb_spec (count (snd x)) c) as [Ex|Ex];
    destruct (Z.eqb_spec (count (snd y)) c) as [Ey|Ey]; try reflexivity.
  exfalso. lia.
Qed.

(** X19: the sort of the compact report is stable: among groups with the
    same count the order of the summary is kept, so ties are listed in order
    of first appearance of their host. *)
Theorem report_order_is_stable (c : Z) (groups : list (string * group)) :
  with_count c (sorted_desc groups) = with_count c groups.
Proof.
  induction groups as [|x l IH]; [reflexivity|].
  cbn [sorted_desc fold_right]. fold (sorted_desc l).
  rewrite insert_desc_with_count. unfold with_count in *. cbn [filter].
  now rewrite IH.
Qed.

(** ** The list of monitored hosts *)

Lemma split_on_nonempty (sep : ascii) (s : string) : split_on sep s <> [].
Proof.
  destruct s as [|c s]; cbn; [discriminate|].
  destruct (Ascii.eqb c sep); [discriminate|].
  destruct (split_on sep s); discriminate.
Qed.

Lemma join_split_on (sep : ascii) (s : string) :
  join (String sep EmptyString) (split_on sep s) = s.
Proof.
  unfold join. induction s as [|c s IH]; [reflexivity|].
  cbn [split_on].
  pose proof (split_on_nonempty sep s) as N.
  destruct (Ascii.eqb_spec c sep) as [->|Hc].
  - destruct (split_on sep s) as [|p ps]; [now destruct N|].
    change (concat (String sep EmptyString) (EmptyString :: p :: ps))
      with (String sep (concat (String sep EmptyString) (p :: ps))).
    now rewrite IH.
  - destruct (split_on sep s) as [|p ps]; [now destruct N|].
    destruct ps as [|q ps].
    + cbn [concat] in IH |- *. now rewrite IH.
    + change (concat (String sep EmptyString) (String c p :: q :: ps))
        with (String c (concat (String sep EmptyString) (p :: q :: ps))).
      now rewrite IH.
Qed.

Lemma nonempty_lower (s : string) : nonempty (lower s) = nonempty s.
Proof. now destruct s. Qed.

(** X20: every entry that the configuration keeps from [MONITORED_HOSTS] is
    non-empty, in lower case and free of surrounding white space; pieces that
    are blank are dropped, so a value made of commas and blanks only gives
    the empty list; and splitting at the commas loses nothing: joining the
    pieces with commas gives the value back. *)
Theorem monitored_hosts_are_clean (raw : string) :
  Forall (fun h => nonempty h = true /\ strip h = h /\ lower h = h)
         (parse_monitored_hosts raw) /\
  (parse_monitored_hosts raw = [] <->
   Forall (fun piece => strip piece = EmptyString) (split_on "," raw)) /\
  join "," (split_on "," raw) = raw.
Proof.
  unfold parse_monitored_hosts. split; [|split; [|apply join_split_on]].
  - apply Forall_forall. intros h Hin.
    apply in_map_iff in Hin as [p [<- Hin]]. apply filter_In in Hin as [_ Hp].
    split; [now rewrite nonempty_lower|].
    split; [now rewrite <- strip_lower, strip_idem | apply lower_idem].
  - induction (split_on "," raw) as [|p ps IH]; [split; constructor|].
    cbn [filter]. destruct (strip p) eqn:E; cbn [nonempty map].
    + rewrite IH. split; intros H; [now constructor | now inversion H].
    + split; [discriminate|]. intros H. inversion H. congruence.
Qed.
